(** * Lowering of GPU subgroup MMA operations to SPIR-V NV cooperative matrix
      operations: a shallow embedding of
      [mlir/lib/Conversion/GPUToSPIRV/WmmaOpsToSPIRV.cpp].

    The conversion patterns of the file are embedded as functions in a small
    monad that threads the [ConversionPatternRewriter] (the trace of the
    operations it created and replaced) and that can abort, the way an
    [assert], a failed [cast<>] or an out-of-range index aborts the C++
    program.  The [LogicalResult] a pattern returns is an ordinary value of
    that monad. *)

From Stdlib Require Import ZArith List String Bool Lia.
Import ListNotations.

Set Implicit Arguments.

Local Open Scope Z_scope.

(* ===================================================================== *)
(** ** Integers of a fixed width *)
(* ===================================================================== *)

Module APInt.

(** [llvm::APInt]: a bit width and the value of the bits read as an
    unsigned number. *)
Record t : Type := Build { BitWidth : Z; U : Z }.

(** [APInt(numBits, val)]: the bits of [val] above [numBits] are dropped. *)
Definition make (numBits : Z) (val : Z) : t :=
  Build numBits (val mod 2 ^ numBits).

Definition getZExtValue (a : t) : Z := U a.

(** [getSExtValue]: the bits read in two's complement. *)
Definition getSExtValue (a : t) : Z :=
  if U a <? 2 ^ (BitWidth a - 1) then U a else U a - 2 ^ BitWidth a.

End APInt.

(* ===================================================================== *)
(** ** Types, attributes, values and operations *)
(* ===================================================================== *)

(** [spirv::Scope]. *)
Inductive Scope : Type :=
| CrossDevice | Device | Workgroup | Subgroup | Invocation | QueueFamily.

(** The types the patterns meet.  [MMAMatrixType] keeps its shape as the
    array [getShape] returns; a [CooperativeMatrixNVType] has an element
    type, a scope, and numbers of rows and columns. *)
Inductive Ty : Type :=
| IntegerType (width : Z)
| FloatType (width : Z)
| IndexType
| MemRefType (shape : list Z) (elementType : Ty)
| PointerType (pointeeType : Ty)
| MMAMatrixType (shape : list Z) (elementType : Ty) (operand : string)
| CooperativeMatrixNVType (elementType : Ty) (scope : Scope)
                          (rows columns : Z).

(** Modelled from the spec: [spirv::CooperativeMatrixNVType::get], declared
    outside this file.  Per the spec a target cooperative matrix type is made
    of an element type, an execution scope, a row count and a column count;
    the four are kept as they are given. *)
Definition CooperativeMatrixNVType_get (elementType : Ty) (scope : Scope)
           (rows columns : Z) : Ty :=
  CooperativeMatrixNVType elementType scope rows columns.

Definition i1Type : Ty := IntegerType 1.
Definition i32Type : Ty := IntegerType 32.

Inductive Attribute : Type :=
| IntegerAttr (type : Ty) (value : APInt.t)
| BoolAttr (value : bool).

(** [IntegerAttr::get(Type, int64_t)], declared outside this file: an
    attribute of an integer type of [w] bits holds an [APInt] of [w] bits (64
    bits for [index]), so the 64-bit argument is reduced to the width of the
    type. *)
Definition IntegerAttr_get (type : Ty) (value : Z) : Attribute :=
  match type with
  | IntegerType w => IntegerAttr type (APInt.make w value)
  | _ => IntegerAttr type (APInt.make 64 value)
  end.

(** [gpu::MMAElementwiseOp], the sub-kind of an elementwise operation. *)
Inductive MMAElementwiseOp : Type :=
| ADDF | MULF | SUBF | MAXF | MINF | DIVF
| ADDI | MULI | SUBI | DIVS | DIVU
| NEGATEF | NEGATES | EXTF.

Definition Location : Type := nat.

(** The kind of an operation together with its inherent attributes.  The
    first five are the source operations of the [gpu] dialect, the [spirv_]
    ones are the operations this file emits or inspects; [OtherOp] stands
    for any operation of another kind. *)
Inductive OpKind : Type :=
| SubgroupMmaLoadMatrixOp (leadDimension : APInt.t) (transpose : bool)
| SubgroupMmaStoreMatrixOp (leadDimension : APInt.t) (transpose : bool)
| SubgroupMmaComputeOp
| SubgroupMmaConstantMatrixOp
| SubgroupMmaElementwiseOp (opType : MMAElementwiseOp)
| spirv_ConstantOp (value : Attribute)
| spirv_NVCooperativeMatrixLoadOp (memory_access : option Attribute)
| spirv_NVCooperativeMatrixStoreOp (memory_access : option Attribute)
| spirv_NVCooperativeMatrixMulAddOp
| spirv_CompositeConstructOp
| spirv_FAddOp | spirv_IAddOp | spirv_FSubOp | spirv_ISubOp
| spirv_FDivOp | spirv_SDivOp | spirv_UDivOp
| spirv_FNegateOp | spirv_SNegateOp | spirv_FConvertOp
| spirv_MatrixTimesScalarOp
| OtherOp (name : string).

(** An SSA value is a block argument or a result of the operation that
    defines it; an operation has a kind, operands, result types and a
    location. *)
Inductive Value : Type :=
| BlockArgument (type : Ty) (argNumber : nat)
| OpResult (type : Ty) (owner : Operation) (resultNumber : nat)
with Operation : Type :=
| mkOperation (kind : OpKind) (operands : list Value)
              (resultTypes : list Ty) (loc : Location).

Definition getKind (op : Operation) : OpKind :=
  let 'mkOperation k _ _ _ := op in k.
Definition getOperands (op : Operation) : list Value :=
  let 'mkOperation _ os _ _ := op in os.
Definition getResultTypes (op : Operation) : list Ty :=
  let 'mkOperation _ _ ts _ := op in ts.
Definition getLoc (op : Operation) : Location :=
  let 'mkOperation _ _ _ l := op in l.

Definition getType (v : Value) : Ty :=
  match v with
  | BlockArgument ty _ => ty
  | OpResult ty _ _ => ty
  end.

(** The results of an operation, one per result type. *)
Fixpoint resultsFrom (op : Operation) (i : nat) (tys : list Ty) : list Value :=
  match tys with
  | [] => []
  | ty :: tys' => OpResult ty op i :: resultsFrom op (S i) tys'
  end.

Definition getResults (op : Operation) : list Value :=
  resultsFrom op 0 (getResultTypes op).

(** The operation names patterns are rooted at and dispatched on. *)
Inductive Dialect : Type := gpu | spirv | other.

Definition getDialect (k : OpKind) : Dialect :=
  match k with
  | SubgroupMmaLoadMatrixOp _ _ | SubgroupMmaStoreMatrixOp _ _
  | SubgroupMmaComputeOp | SubgroupMmaConstantMatrixOp
  | SubgroupMmaElementwiseOp _ => gpu
  | OtherOp _ => other
  | _ => spirv
  end.

(** [isa<spirv::CooperativeMatrixNVType>(type)]. *)
Definition isa_CooperativeMatrixNVType (ty : Ty) : bool :=
  match ty with
  | CooperativeMatrixNVType _ _ _ _ => true
  | _ => false
  end.

(** [value.getDefiningOp<gpu::SubgroupMmaConstantMatrixOp>()]: the defining
    operation when the value is a result of an operation of that kind. *)
Definition getDefiningOp_SubgroupMmaConstantMatrixOp (v : Value)
  : option Operation :=
  match v with
  | OpResult _ owner _ =>
      match getKind owner with
      | SubgroupMmaConstantMatrixOp => Some owner
      | _ => None
      end
  | BlockArgument _ _ => None
  end.

(** [value.getDefiningOp<spirv::CompositeConstructOp>()]. *)
Definition getDefiningOp_CompositeConstructOp (v : Value) : option Operation :=
  match v with
  | OpResult _ owner _ =>
      match getKind owner with
      | spirv_CompositeConstructOp => Some owner
      | _ => None
      end
  | BlockArgument _ _ => None
  end.

(** [cc.getConstituents()]: all the operands of a composite construct. *)
Definition getConstituents (cc : Operation) : list Value := getOperands cc.

(* ===================================================================== *)
(** ** The rewriter monad *)
(* ===================================================================== *)

(** What a [ConversionPatternRewriter] is asked to do: insert a newly built
    operation, or replace an operation by values (redirecting every use of
    its results to them and erasing it). *)
Inductive RewriteAction : Type :=
| Create (op : Operation)
| ReplaceOp (op : Operation) (newValues : list Value).

(** The rewriter is the trace of its actions, the most recent first. *)
Definition Rewriter : Type := list RewriteAction.

Inductive LogicalResult : Type := success | failure.

(** [success(bool)]. *)
Definition success_if (isSuccess : bool) : LogicalResult :=
  if isSuccess then success else failure.

(** A run either returns a value and the rewriter after it, or aborts. *)
Inductive Result (A : Type) : Type :=
| Ok (a : A) (rewriter : Rewriter)
| Abort (reason : string).

Arguments Abort {A} reason.

Definition M (A : Type) : Type := Rewriter -> Result A.

Definition ret {A} (a : A) : M A := fun st => Ok a st.

Definition bind {A B} (c : M A) (k : A -> M B) : M B :=
  fun st =>
    match c st with
    | Ok a st' => k a st'
    | Abort r => Abort r
    end.

Definition abort {A} (reason : string) : M A := fun _ => Abort reason.

Declare Scope rewriter_scope.
Delimit Scope rewriter_scope with rewriter.
Notation "x <- c1 ;; c2" := (bind c1 (fun x => c2))
  (at level 61, c1 at next level, right associativity) : rewriter_scope.
Notation "' pat <- c1 ;; c2" :=
  (bind c1 (fun x => match x with pat => c2 end))
  (at level 61, pat pattern, c1 at next level, right associativity)
  : rewriter_scope.
Local Open Scope rewriter_scope.

(** [assert(cond)], as a build with assertions runs it: a false condition
    stops the program.  A build with [NDEBUG] has no such statement. *)
Definition assert_ (cond : bool) (what : string) : M unit :=
  if cond then ret tt else abort what.

(** A read that the C++ code performs without a check ([range.front()],
    [array[i]], [op->getResult(i)]) and that must find something. *)
Definition expect {A} (o : option A) (what : string) : M A :=
  match o with
  | Some a => ret a
  | None => abort what
  end.

Definition front {A} (l : list A) : M A := expect (hd_error l) "front"%string.
Definition back {A} (l : list A) : M A :=
  expect (hd_error (rev l)) "back"%string.
Definition index {A} (l : list A) (i : nat) : M A :=
  expect (nth_error l i) "operator[]"%string.

Definition getOperand (op : Operation) (i : nat) : M Value :=
  expect (nth_error (getOperands op) i) "getOperand"%string.
Definition getResult (op : Operation) (i : nat) : M Value :=
  expect (nth_error (getResults op) i) "getResult"%string.

(** [cast<gpu::MMAMatrixType>(type)] and [cast<MemRefType>(type)]. *)
Definition cast_MMAMatrixType (type : Ty) : M Ty :=
  match type with
  | MMAMatrixType _ _ _ => ret type
  | _ => abort "cast<gpu::MMAMatrixType>"%string
  end.

Definition cast_MemRefType (type : Ty) : M Ty :=
  match type with
  | MemRefType _ _ => ret type
  | _ => abort "cast<MemRefType>"%string
  end.

(** [rewriter.create<OpTy>(...)]: the built operation is inserted. *)
Definition create (newOp : Operation) : M Operation :=
  fun st => Ok newOp (Create newOp :: st).

(** [rewriter.replaceOp(op, newValues)]. *)
Definition replaceOp (op : Operation) (newValues : list Value) : M unit :=
  fun st => Ok tt (ReplaceOp op newValues :: st).

(** [rewriter.replaceOpWithNewOp<OpTy>(op, ...)]: the new operation is
    created at the location of [op], and [op] is replaced by its results. *)
Definition replaceOpWithNewOp (op : Operation)
           (build : Location -> Operation) : M Operation :=
  newOp <- create (build (getLoc op)) ;;
  _ <- replaceOp op (getResults newOp) ;;
  ret newOp.

(** *** Accessors of the source operations *)

Definition getLeadDimension (op : Operation) : M APInt.t :=
  match getKind op with
  | SubgroupMmaLoadMatrixOp leadDimension _
  | SubgroupMmaStoreMatrixOp leadDimension _ => ret leadDimension
  | _ => abort "getLeadDimension"%string
  end.

Definition getTranspose (op : Operation) : M bool :=
  match getKind op with
  | SubgroupMmaLoadMatrixOp _ transpose
  | SubgroupMmaStoreMatrixOp _ transpose => ret transpose
  | _ => abort "getTranspose"%string
  end.

Definition getOpType (op : Operation) : M MMAElementwiseOp :=
  match getKind op with
  | SubgroupMmaElementwiseOp opType => ret opType
  | _ => abort "getOpType"%string
  end.

(** *** Builders of the target operations *)

Definition build_ConstantOp (type : Ty) (value : Attribute) (loc : Location)
  : Operation :=
  mkOperation (spirv_ConstantOp value) [] [type] loc.

Definition build_NVCooperativeMatrixLoadOp (type : Ty)
           (pointer stride columnmajor : Value)
           (memory_access : option Attribute) (loc : Location) : Operation :=
  mkOperation (spirv_NVCooperativeMatrixLoadOp memory_access)
              [pointer; stride; columnmajor] [type] loc.

Definition build_NVCooperativeMatrixStoreOp
           (pointer object stride columnmajor : Value)
           (memory_access : option Attribute) (loc : Location) : Operation :=
  mkOperation (spirv_NVCooperativeMatrixStoreOp memory_access)
              [pointer; object; stride; columnmajor] [] loc.

Definition build_NVCooperativeMatrixMulAddOp (type : Ty) (a b c : Value)
           (loc : Location) : Operation :=
  mkOperation spirv_NVCooperativeMatrixMulAddOp [a; b; c] [type] loc.

Definition build_CompositeConstructOp (type : Ty) (constituents : list Value)
           (loc : Location) : Operation :=
  mkOperation spirv_CompositeConstructOp constituents [type] loc.

(** The arithmetic operations are built from a result type and a range of
    operands. *)
Definition build_op (kind : OpKind) (type : Ty) (operands : list Value)
           (loc : Location) : Operation :=
  mkOperation kind operands [type] loc.

(* ===================================================================== *)
(** ** The type translator and the conversion patterns *)
(* ===================================================================== *)

(** [convertMMAToSPIRVCoopMatrixNVType]: the cooperative matrix type of the
    element type and of the first two entries of the shape, at subgroup
    scope.  Its argument is a [gpu::MMAMatrixType]. *)
Definition convertMMAToSPIRVCoopMatrixNVType (type : Ty) : M Ty :=
  match type with
  | MMAMatrixType retTypeShape elementType _ =>
      rows <- index retTypeShape 0 ;;
      columns <- index retTypeShape 1 ;;
      ret (CooperativeMatrixNVType_get elementType Subgroup rows columns)
  | _ => abort "cast<gpu::MMAMatrixType>"%string
  end.

(** [createElementwiseOp]: replaces the elementwise operation by the SPIR-V
    operation of its sub-kind when cooperative matrices support it, and
    tells whether it did. *)
Definition createElementwiseOp (op : Operation) (coopType : Ty)
           (operands : list Value) : M bool :=
  opType <- getOpType op ;;
  match opType with
  | ADDF =>
      _ <- replaceOpWithNewOp op (build_op spirv_FAddOp coopType operands) ;;
      ret true
  | ADDI =>
      _ <- replaceOpWithNewOp op (build_op spirv_IAddOp coopType operands) ;;
      ret true
  | SUBF =>
      _ <- replaceOpWithNewOp op (build_op spirv_FSubOp coopType operands) ;;
      ret true
  | SUBI =>
      _ <- replaceOpWithNewOp op (build_op spirv_ISubOp coopType operands) ;;
      ret true
  | DIVF =>
      _ <- replaceOpWithNewOp op (build_op spirv_FDivOp coopType operands) ;;
      ret true
  | DIVS =>
      _ <- replaceOpWithNewOp op (build_op spirv_SDivOp coopType operands) ;;
      ret true
  | DIVU =>
      _ <- replaceOpWithNewOp op (build_op spirv_UDivOp coopType operands) ;;
      ret true
  | NEGATEF =>
      _ <- replaceOpWithNewOp op
             (build_op spirv_FNegateOp coopType operands) ;;
      ret true
  | NEGATES =>
      _ <- replaceOpWithNewOp op
             (build_op spirv_SNegateOp coopType operands) ;;
      ret true
  | EXTF =>
      _ <- replaceOpWithNewOp op
             (build_op spirv_FConvertOp coopType operands) ;;
      ret true
  | _ => ret false
  end.

(** The operands of an adaptor are the already converted operands of the
    operation, in the order of the original ones. *)
Definition OpAdaptor : Type := list Value.

Definition isSome {A} (o : option A) : bool :=
  match o with Some _ => true | None => false end.

Definition isMULF (opType : MMAElementwiseOp) : bool :=
  match opType with MULF => true | _ => false end.

Section Patterns.

(** The SPIR-V type converter and [spirv::getElementPtr], the address
    computation, are defined outside this file; the latter may create
    operations of its own. *)
Variable SPIRVTypeConverter : Type.
Variable getElementPtr :
  SPIRVTypeConverter -> Ty -> Value -> list Value -> Location -> M Value.

(** [WmmaLoadOpToSPIRVLowering::matchAndRewrite]. *)
Definition WmmaLoadOpToSPIRVLowering_matchAndRewrite
           (typeConverter : SPIRVTypeConverter)
           (subgroupMmaLoadMatrixOp : Operation) (adaptor : OpAdaptor)
  : M LogicalResult :=
  let loc := getLoc subgroupMmaLoadMatrixOp in
  res <- getResult subgroupMmaLoadMatrixOp 0 ;;
  retType <- cast_MMAMatrixType (getType res) ;;
  srcMemref <- getOperand subgroupMmaLoadMatrixOp 0 ;;
  memrefType <- cast_MemRefType (getType srcMemref) ;;
  adaptorSrcMemref <- index adaptor 0 ;;
  let adaptorIndices := skipn 1 adaptor in
  bufferPtr <- getElementPtr typeConverter memrefType adaptorSrcMemref
                             adaptorIndices loc ;;
  coopType <- convertMMAToSPIRVCoopMatrixNVType retType ;;
  leadDimension <- getLeadDimension subgroupMmaLoadMatrixOp ;;
  let stride := APInt.getSExtValue leadDimension in
  strideOp <- create (build_ConstantOp i32Type
                        (IntegerAttr_get i32Type stride) loc) ;;
  strideValue <- getResult strideOp 0 ;;
  isColMajor <- getTranspose subgroupMmaLoadMatrixOp ;;
  columnMajorOp <- create (build_ConstantOp i1Type (BoolAttr isColMajor)
                                            loc) ;;
  columnMajor <- getResult columnMajorOp 0 ;;
  _ <- replaceOpWithNewOp subgroupMmaLoadMatrixOp
         (build_NVCooperativeMatrixLoadOp coopType bufferPtr strideValue
                                          columnMajor None) ;;
  ret success.

(** [WmmaStoreOpToSPIRVLowering::matchAndRewrite]. *)
Definition WmmaStoreOpToSPIRVLowering_matchAndRewrite
           (typeConverter : SPIRVTypeConverter)
           (subgroupMmaStoreMatrixOp : Operation) (adaptor : OpAdaptor)
  : M LogicalResult :=
  let loc := getLoc subgroupMmaStoreMatrixOp in
  dstMemref <- getOperand subgroupMmaStoreMatrixOp 1 ;;
  memrefType <- cast_MemRefType (getType dstMemref) ;;
  adaptorDstMemref <- index adaptor 1 ;;
  let adaptorIndices := skipn 2 adaptor in
  bufferPtr <- getElementPtr typeConverter memrefType adaptorDstMemref
                             adaptorIndices loc ;;
  leadDimension <- getLeadDimension subgroupMmaStoreMatrixOp ;;
  let stride := APInt.getSExtValue leadDimension in
  strideOp <- create (build_ConstantOp i32Type
                        (IntegerAttr_get i32Type stride) loc) ;;
  strideValue <- getResult strideOp 0 ;;
  useColMajor <- getTranspose subgroupMmaStoreMatrixOp ;;
  columnMajorOp <- create (build_ConstantOp i1Type (BoolAttr useColMajor)
                                            loc) ;;
  columnMajor <- getResult columnMajorOp 0 ;;
  adaptorSrc <- index adaptor 0 ;;
  _ <- replaceOpWithNewOp subgroupMmaStoreMatrixOp
         (build_NVCooperativeMatrixStoreOp bufferPtr adaptorSrc strideValue
                                           columnMajor None) ;;
  ret success.

(** [WmmaMmaOpToSPIRVLowering::matchAndRewrite]. *)
Definition WmmaMmaOpToSPIRVLowering_matchAndRewrite
           (subgroupMmaComputeOp : Operation) (adaptor : OpAdaptor)
  : M LogicalResult :=
  opC <- index adaptor 2 ;;
  opA <- index adaptor 0 ;;
  opB <- index adaptor 1 ;;
  _ <- replaceOpWithNewOp subgroupMmaComputeOp
         (build_NVCooperativeMatrixMulAddOp (getType opC) opA opB opC) ;;
  ret success.

(** [WmmaConstantOpToSPIRVLowering::matchAndRewrite]. *)
Definition WmmaConstantOpToSPIRVLowering_matchAndRewrite
           (subgroupMmaConstantMatrixOp : Operation) (adaptor : OpAdaptor)
  : M LogicalResult :=
  cst <- index adaptor 0 ;;
  res <- getResult subgroupMmaConstantMatrixOp 0 ;;
  type <- cast_MMAMatrixType (getType res) ;;
  coopType <- convertMMAToSPIRVCoopMatrixNVType type ;;
  _ <- replaceOpWithNewOp subgroupMmaConstantMatrixOp
         (build_CompositeConstructOp coopType [cst]) ;;
  ret success.

(** [WmmaElementwiseOpToSPIRVDefaultLowering::matchAndRewrite]. *)
Definition WmmaElementwiseOpToSPIRVDefaultLowering_matchAndRewrite
           (elementwiseOp : Operation) (adaptor : OpAdaptor)
  : M LogicalResult :=
  (* All operands should be of cooperative matrix types. *)
  if negb (forallb (fun operand =>
                      isa_CooperativeMatrixNVType (getType operand))
                   adaptor)
  then ret failure
  else
    res <- getResult elementwiseOp 0 ;;
    type <- cast_MMAMatrixType (getType res) ;;
    coopType <- convertMMAToSPIRVCoopMatrixNVType type ;;
    created <- createElementwiseOp elementwiseOp coopType adaptor ;;
    ret (success_if created).

(** [WmmaElementwiseOpToSPIRVScalarMulLowering::matchAndRewrite]. *)
Definition WmmaElementwiseOpToSPIRVScalarMulLowering_matchAndRewrite
           (elementwiseOp : Operation) (adaptor : OpAdaptor)
  : M LogicalResult :=
  if negb (Nat.eqb (List.length adaptor) 2) then ret failure
  else
  (* All operands should be of cooperative matrix types. *)
  if negb (forallb (fun operand =>
                      isa_CooperativeMatrixNVType (getType operand))
                   adaptor)
  then ret failure
  else
  opType <- getOpType elementwiseOp ;;
  if negb (isMULF opType) then ret failure
  else
  (* Use the original operands to check whether one of the operands is a
     splat scalar value. *)
  lhs <- front (getOperands elementwiseOp) ;;
  rhs <- back (getOperands elementwiseOp) ;;
  '(splat, matrix) <-
    (if isSome (getDefiningOp_SubgroupMmaConstantMatrixOp lhs) then
       s <- front adaptor ;;
       m <- back adaptor ;;
       ret (Some s, Some m)
     else if isSome (getDefiningOp_SubgroupMmaConstantMatrixOp rhs) then
       m <- front adaptor ;;
       s <- back adaptor ;;
       ret (Some s, Some m)
     else ret (None, None)) ;;
  match splat, matrix with
  | Some splat, Some matrix =>
      (* Constant MMA matrix ops are converted to spirv.CompositeConstruct
         ops. *)
      match getDefiningOp_CompositeConstructOp splat with
      | None => ret failure
      | Some cc =>
          _ <- assert_ (Nat.eqb (List.length (getConstituents cc)) 1)
                       "cc.getConstituents().size() == 1"%string ;;
          scalar <- front (getConstituents cc) ;;
          res <- getResult elementwiseOp 0 ;;
          type <- cast_MMAMatrixType (getType res) ;;
          coopType <- convertMMAToSPIRVCoopMatrixNVType type ;;
          _ <- replaceOpWithNewOp elementwiseOp
                 (build_op spirv_MatrixTimesScalarOp coopType
                           [matrix; scalar]) ;;
          ret success
      end
  | _, _ => ret failure
  end.

End Patterns.

(** [WmmaElementwiseOpToSPIRVScalarMulLowering::matchAndRewrite] as a build
    with [NDEBUG] compiles it: [assert] expands to nothing, and the statement
    that follows it takes the first constituent whatever their number.  The
    rest of the function is the same text. *)
Definition WmmaElementwiseOpToSPIRVScalarMulLowering_matchAndRewrite_NDEBUG
           (elementwiseOp : Operation) (adaptor : OpAdaptor)
  : M LogicalResult :=
  if negb (Nat.eqb (List.length adaptor) 2) then ret failure
  else
  if negb (forallb (fun operand =>
                      isa_CooperativeMatrixNVType (getType operand))
                   adaptor)
  then ret failure
  else
  opType <- getOpType elementwiseOp ;;
  if negb (isMULF opType) then ret failure
  else
  lhs <- front (getOperands elementwiseOp) ;;
  rhs <- back (getOperands elementwiseOp) ;;
  '(splat, matrix) <-
    (if isSome (getDefiningOp_SubgroupMmaConstantMatrixOp lhs) then
       s <- front adaptor ;;
       m <- back adaptor ;;
       ret (Some s, Some m)
     else if isSome (getDefiningOp_SubgroupMmaConstantMatrixOp rhs) then
       m <- front adaptor ;;
       s <- back adaptor ;;
       ret (Some s, Some m)
     else ret (None, None)) ;;
  match splat, matrix with
  | Some splat, Some matrix =>
      match getDefiningOp_CompositeConstructOp splat with
      | None => ret failure
      | Some cc =>
          scalar <- front (getConstituents cc) ;;
          res <- getResult elementwiseOp 0 ;;
          type <- cast_MMAMatrixType (getType res) ;;
          coopType <- convertMMAToSPIRVCoopMatrixNVType type ;;
          _ <- replaceOpWithNewOp elementwiseOp
                 (build_op spirv_MatrixTimesScalarOp coopType
                           [matrix; scalar]) ;;
          ret success
      end
  | _, _ => ret failure
  end.

(* ===================================================================== *)
(** ** The pattern set *)
(* ===================================================================== *)

(** The six conversion patterns of the file. *)
Inductive PatternId : Type :=
| WmmaLoadOpToSPIRVLowering
| WmmaStoreOpToSPIRVLowering
| WmmaMmaOpToSPIRVLowering
| WmmaConstantOpToSPIRVLowering
| WmmaElementwiseOpToSPIRVDefaultLowering
| WmmaElementwiseOpToSPIRVScalarMulLowering.

(** The source operation of a pattern is the argument of the
    [OpConversionPattern<SourceOp>] it derives from; [isa_SourceOp p k]
    tells whether an operation of kind [k] is one. *)
Definition isa_SourceOp (p : PatternId) (k : OpKind) : bool :=
  match p, k with
  | WmmaLoadOpToSPIRVLowering, SubgroupMmaLoadMatrixOp _ _ => true
  | WmmaStoreOpToSPIRVLowering, SubgroupMmaStoreMatrixOp _ _ => true
  | WmmaMmaOpToSPIRVLowering, SubgroupMmaComputeOp => true
  | WmmaConstantOpToSPIRVLowering, SubgroupMmaConstantMatrixOp => true
  | WmmaElementwiseOpToSPIRVDefaultLowering, SubgroupMmaElementwiseOp _ =>
      true
  | WmmaElementwiseOpToSPIRVScalarMulLowering, SubgroupMmaElementwiseOp _ =>
      true
  | _, _ => false
  end.

(** A pattern instance in a pattern set: which pattern, the type converter
    it was constructed with, and its benefit. *)
Record ConversionPattern (TC : Type) : Type := mkPattern {
  patternId : PatternId;
  typeConverter : TC;
  benefit : nat
}.

Definition RewritePatternSet (TC : Type) : Type := list (ConversionPattern TC).

(** Modelled from the spec: the benefit a pattern gets when its constructor
    is given none (the default argument of the [OpConversionPattern]
    constructor, declared outside this file); the spec calls it the baseline
    weight 1. *)
Definition defaultBenefit : nat := 1.

(** [patterns.add<Ts...>(converter, context, benefit)]: one instance of each
    listed pattern is appended to the set. *)
Definition add {TC} (ids : list PatternId) (converter : TC) (benefit : nat)
           (patterns : RewritePatternSet TC) : RewritePatternSet TC :=
  patterns ++ map (fun id => mkPattern id converter benefit) ids.

(** [populateGpuWMMAToSPIRVCoopMatrixNVConversionPatterns]. *)
Definition populateGpuWMMAToSPIRVCoopMatrixNVConversionPatterns {TC}
           (converter : TC) (patterns : RewritePatternSet TC)
  : RewritePatternSet TC :=
  let patterns :=
    add [WmmaLoadOpToSPIRVLowering; WmmaMmaOpToSPIRVLowering;
         WmmaStoreOpToSPIRVLowering; WmmaConstantOpToSPIRVLowering;
         WmmaElementwiseOpToSPIRVDefaultLowering]
        converter defaultBenefit patterns in
  (* Give the following patterns higher benefit to prevail over the default
     one. *)
  add [WmmaElementwiseOpToSPIRVScalarMulLowering] converter 2%nat patterns.

Section Driver.

Variable SPIRVTypeConverter : Type.
Variable getElementPtr :
  SPIRVTypeConverter -> Ty -> Value -> list Value -> Location -> M Value.

(** The body of each pattern. *)
Definition rewriteWith (p : ConversionPattern SPIRVTypeConverter)
  : Operation -> OpAdaptor -> M LogicalResult :=
  match patternId p with
  | WmmaLoadOpToSPIRVLowering =>
      WmmaLoadOpToSPIRVLowering_matchAndRewrite getElementPtr
                                                (typeConverter p)
  | WmmaStoreOpToSPIRVLowering =>
      WmmaStoreOpToSPIRVLowering_matchAndRewrite getElementPtr
                                                 (typeConverter p)
  | WmmaMmaOpToSPIRVLowering => WmmaMmaOpToSPIRVLowering_matchAndRewrite
  | WmmaConstantOpToSPIRVLowering =>
      WmmaConstantOpToSPIRVLowering_matchAndRewrite
  | WmmaElementwiseOpToSPIRVDefaultLowering =>
      WmmaElementwiseOpToSPIRVDefaultLowering_matchAndRewrite
  | WmmaElementwiseOpToSPIRVScalarMulLowering =>
      WmmaElementwiseOpToSPIRVScalarMulLowering_matchAndRewrite
  end.

(** Modelled from the spec: the entry of a pattern the driver calls with an
    untyped operation (defined by [OpConversionPattern], outside this
    file).  The operation is cast to the source operation of the pattern
    and handed to the pattern together with its converted operands. *)
Definition matchAndRewrite (p : ConversionPattern SPIRVTypeConverter)
           (op : Operation) (operands : list Value) : M LogicalResult :=
  if isa_SourceOp (patternId p) (getKind op)
  then rewriteWith p op operands
  else abort "cast<SourceOp>"%string.

(** Modelled from the spec: the driver's choice among competing patterns
    (the pattern applicator is outside this file).  Per the spec the
    patterns registered for the kind of the operation are tried by
    descending benefit, and the first one that does not decline wins. *)
Fixpoint insertByBenefit (p : ConversionPattern SPIRVTypeConverter)
         (l : list (ConversionPattern SPIRVTypeConverter))
  : list (ConversionPattern SPIRVTypeConverter) :=
  match l with
  | [] => [p]
  | q :: l' =>
      if Nat.ltb (benefit p) (benefit q)
      then q :: insertByBenefit p l'
      else p :: q :: l'
  end.

Definition sortByBenefit (l : list (ConversionPattern SPIRVTypeConverter))
  : list (ConversionPattern SPIRVTypeConverter) :=
  fold_right insertByBenefit [] l.

Definition candidates (patterns : RewritePatternSet SPIRVTypeConverter)
           (op : Operation) : list (ConversionPattern SPIRVTypeConverter) :=
  sortByBenefit
    (filter (fun p => isa_SourceOp (patternId p) (getKind op)) patterns).

Fixpoint tryPatterns (ps : list (ConversionPattern SPIRVTypeConverter))
         (op : Operation) (operands : list Value) : M LogicalResult :=
  match ps with
  | [] => ret failure
  | p :: ps' =>
      r <- matchAndRewrite p op operands ;;
      match r with
      | success => ret success
      | failure => tryPatterns ps' op operands
      end
  end.

Definition applyPatterns (patterns : RewritePatternSet SPIRVTypeConverter)
           (op : Operation) (operands : list Value) : M LogicalResult :=
  tryPatterns (candidates patterns op) op operands.

End Driver.

(* ===================================================================== *)
(** ** Reading a rewriter trace *)
(* ===================================================================== *)

(** The operation created by the last [replaceOpWithNewOp], and what it
    replaced. *)
Definition emitted (rw : Rewriter) : option Operation :=
  match rw with
  | ReplaceOp _ _ :: Create newOp :: _ => Some newOp
  | _ => None
  end.

Definition definingOp (v : Value) : option Operation :=
  match v with
  | OpResult _ owner _ => Some owner
  | BlockArgument _ _ => None
  end.

(** The attribute of the [spirv.Constant] that defines a value. *)
Definition constantOf (v : Value) : option Attribute :=
  match definingOp v with
  | Some owner =>
      match getKind owner with
      | spirv_ConstantOp value => Some value
      | _ => None
      end
  | None => None
  end.

(** The stride and column-major operands of a cooperative matrix load
    (pointer, stride, columnmajor) or store (pointer, object, stride,
    columnmajor). *)
Definition strideOperand (op : Operation) : option Value :=
  match getKind op with
  | spirv_NVCooperativeMatrixLoadOp _ => nth_error (getOperands op) 1
  | spirv_NVCooperativeMatrixStoreOp _ => nth_error (getOperands op) 2
  | _ => None
  end.

Definition columnMajorOperand (op : Operation) : option Value :=
  match getKind op with
  | spirv_NVCooperativeMatrixLoadOp _ => nth_error (getOperands op) 2
  | spirv_NVCooperativeMatrixStoreOp _ => nth_error (getOperands op) 3
  | _ => None
  end.

Definition option_bind {A B} (o : option A) (f : A -> option B) : option B :=
  match o with Some a => f a | None => None end.

(** [IntegerAttr::getInt]: the stored bits, sign extended. *)
Definition getInt (a : Attribute) : option Z :=
  match a with
  | IntegerAttr _ value => Some (APInt.getSExtValue value)
  | BoolAttr _ => None
  end.

Definition getBool (a : Attribute) : option bool :=
  match a with
  | BoolAttr value => Some value
  | IntegerAttr _ _ => None
  end.

(** The integer held by the stride constant of the emitted load or store,
    and the boolean held by its column-major constant. *)
Definition emittedStride (rw : Rewriter) : option Z :=
  option_bind (emitted rw) (fun op =>
  option_bind (strideOperand op) (fun v =>
  option_bind (constantOf v) getInt)).

Definition emittedColumnMajor (rw : Rewriter) : option bool :=
  option_bind (emitted rw) (fun op =>
  option_bind (columnMajorOperand op) (fun v =>
  option_bind (constantOf v) getBool)).

(* ===================================================================== *)
(** ** What the specification documents *)
(* ===================================================================== *)

(** The elementwise sub-kinds the specification lists as supported by the
    default rule. *)
Definition spec_supported : list MMAElementwiseOp :=
  [ADDF; ADDI; SUBF; SUBI; DIVF; DIVS; DIVU; NEGATEF; NEGATES; EXTF].

(** The one-to-one mapping the specification documents: each supported
    sub-kind and the target arithmetic operation of the same name. *)
Definition spec_target (opType : MMAElementwiseOp) : option OpKind :=
  match opType with
  | ADDF => Some spirv_FAddOp
  | ADDI => Some spirv_IAddOp
  | SUBF => Some spirv_FSubOp
  | SUBI => Some spirv_ISubOp
  | DIVF => Some spirv_FDivOp
  | DIVS => Some spirv_SDivOp
  | DIVU => Some spirv_UDivOp
  | NEGATEF => Some spirv_FNegateOp
  | NEGATES => Some spirv_SNegateOp
  | EXTF => Some spirv_FConvertOp
  | MULF | MAXF | MINF | MULI => None
  end.

Definition allCooperative (operands : list Value) : bool :=
  forallb (fun operand => isa_CooperativeMatrixNVType (getType operand))
          operands.

(** The trace of one [replaceOpWithNewOp]: [newOp] is created, then [op] is
    replaced by the results of [newOp]. *)
Definition replacedBy (op newOp : Operation) (rw : Rewriter) : Rewriter :=
  ReplaceOp op (getResults newOp) :: Create newOp :: rw.

(** Modelled from the spec: one pass of the rule set over a fragment, an
    operation at a time in program order, each with its converted operands
    (the walk is the external driver's).  The result lists, per operation,
    whether some pattern rewrote it. *)
Fixpoint applyToFragment {TC}
         (getElementPtr : TC -> Ty -> Value -> list Value -> Location ->
                          M Value)
         (patterns : RewritePatternSet TC)
         (fragment : list (Operation * list Value)) : M (list LogicalResult) :=
  match fragment with
  | [] => ret []
  | (op, operands) :: rest =>
      r <- applyPatterns getElementPtr patterns op operands ;;
      rs <- applyToFragment getElementPtr patterns rest ;;
      ret (r :: rs)
  end.

(** A pattern run declines atomically when a [failure] leaves the rewriter
    as it found it. *)
Definition declinesAtomically (c : M LogicalResult) : Prop :=
  forall rw rw', c rw = Ok failure rw' -> rw' = rw.

(** A pattern run that never returns [failure]. *)
Definition neverDeclines (c : M LogicalResult) : Prop :=
  forall rw rw', c rw <> Ok failure rw'.

(** A computation that only reads: it leaves the rewriter untouched. *)
Definition readsOnly {A} (c : M A) : Prop :=
  forall rw a rw', c rw = Ok a rw' -> rw' = rw.

(** The operand pair the rule works with: the converted operand standing for
    the splat, and the one standing for the matrix. *)
Definition chooseSplat (lhs rhs x' y' : Value) : option (Value * Value) :=
  if isSome (getDefiningOp_SubgroupMmaConstantMatrixOp lhs)
  then Some (x', y')
  else if isSome (getDefiningOp_SubgroupMmaConstantMatrixOp rhs)
       then Some (y', x')
       else None.

(** *** Sample inputs *)

Module Sample.

Definition f32 : Ty := FloatType 32.
Definition matrixType : Ty := MMAMatrixType [16; 16] f32 "COp".
Definition coopType : Ty := CooperativeMatrixNVType f32 Subgroup 16 16.
Definition memrefType : Ty := MemRefType [32; 32] f32.

(** An address computation that returns the converted base pointer. *)
Definition getElementPtr (_ : unit) (_ : Ty) (basePtr : Value)
           (_ : list Value) (_ : Location) : M Value :=
  ret basePtr.

Definition memref : Value := BlockArgument memrefType 0.
Definition pointer : Value := BlockArgument (PointerType f32) 0.
Definition i0 : Value := BlockArgument IndexType 1.

(** A scalar [k], the constant matrix made of it, and its lowered form. *)
Definition k : Value := BlockArgument f32 2.
Definition splatOp : Operation :=
  mkOperation SubgroupMmaConstantMatrixOp [k] [matrixType] 7%nat.
Definition X : Value := OpResult matrixType splatOp 0.
Definition ccOp : Operation := build_CompositeConstructOp coopType [k] 7%nat.
Definition X' : Value := OpResult coopType ccOp 0.

(** A genuine matrix [M] and its lowered form. *)
Definition Y : Value := BlockArgument matrixType 3.
Definition Y' : Value := BlockArgument coopType 3.

(** A composite construct of two constituents. *)
Definition k2 : Value := BlockArgument f32 4.

(** A second constant matrix and its lowered form. *)
Definition splat2Op : Operation :=
  mkOperation SubgroupMmaConstantMatrixOp [k2] [matrixType] 8%nat.
Definition Z2 : Value := OpResult matrixType splat2Op 0.
Definition cc3Op : Operation :=
  build_CompositeConstructOp coopType [k2] 8%nat.
Definition Z2' : Value := OpResult coopType cc3Op 0.

Definition mulf (lhs rhs : Value) : Operation :=
  mkOperation (SubgroupMmaElementwiseOp MULF) [lhs; rhs] [matrixType] 9%nat.

Definition load (leadDimension : Z) (transpose : bool) : Operation :=
  mkOperation
    (SubgroupMmaLoadMatrixOp (APInt.make 64 leadDimension) transpose)
    [memref; i0; i0] [matrixType] 5%nat.

Definition store (leadDimension : Z) (transpose : bool) : Operation :=
  mkOperation
    (SubgroupMmaStoreMatrixOp (APInt.make 64 leadDimension) transpose)
    [Y; memref; i0; i0] [] 5%nat.

End Sample.

(* ===================================================================== *)
(** ** The type translator *)
(* ===================================================================== *)

(** C5.  For every abstract matrix type of element type [E] and shape
    [(rows, cols)] the type translator returns, whatever the rewriter, the
    cooperative matrix type of the same element type, rows and columns at
    subgroup scope, and leaves the rewriter untouched; two calls on the same
    type return the same type. *)
Theorem convertMMAToSPIRVCoopMatrixNVType_total
        (E : Ty) (rows cols : Z) (operand : string) (rw rw2 : Rewriter) :
  convertMMAToSPIRVCoopMatrixNVType (MMAMatrixType [rows; cols] E operand) rw
  = Ok (CooperativeMatrixNVType E Subgroup rows cols) rw
  /\ convertMMAToSPIRVCoopMatrixNVType (MMAMatrixType [rows; cols] E operand)
                                       rw2
     = Ok (CooperativeMatrixNVType E Subgroup rows cols) rw2.
Proof. split; reflexivity. Qed.

Lemma convertMMAToSPIRVCoopMatrixNVType_readsOnly (type : Ty) :
  readsOnly (convertMMAToSPIRVCoopMatrixNVType type).
Proof.
  intros rw a rw' H.
  unfold convertMMAToSPIRVCoopMatrixNVType, bind, index, expect, abort in H.
  destruct type; try discriminate.
  destruct shape as [|r [|c shape']]; cbn in H; try discriminate.
  now inversion H.
Qed.

(* ===================================================================== *)
(** ** The multiply-accumulate rule *)
(* ===================================================================== *)

(** C4.  For every multiply-accumulate operation whose converted operands
    are [A], [B] and [C], the rule succeeds: it creates one
    [NVCooperativeMatrixMulAdd] whose operands are [A], [B], [C] in that
    order and whose result type is the type of [C] as it is, and replaces the
    operation by its result. *)
Theorem WmmaMmaOpToSPIRVLowering_emits
        (operands : list Value) (resultTypes : list Ty) (loc : Location)
        (A B C : Value) (rw : Rewriter) :
  let op := mkOperation SubgroupMmaComputeOp operands resultTypes loc in
  let mulAdd :=
    mkOperation spirv_NVCooperativeMatrixMulAddOp [A; B; C] [getType C] loc in
  WmmaMmaOpToSPIRVLowering_matchAndRewrite op [A; B; C] rw
  = Ok success (replacedBy op mulAdd rw)
  /\ getResults mulAdd = [OpResult (getType C) mulAdd 0].
Proof. split; reflexivity. Qed.

(* ===================================================================== *)
(** ** The load and store rules *)
(* ===================================================================== *)

Lemma getSExtValue_make_32 (S : Z) :
  - 2 ^ 31 <= S < 2 ^ 31 -> APInt.getSExtValue (APInt.make 32 S) = S.
Proof.
  intros HS. unfold APInt.getSExtValue, APInt.make. cbn [APInt.U APInt.BitWidth].
  change (2 ^ (32 - 1)) with 2147483648. change (2 ^ 32) with 4294967296.
  change (2 ^ 31) with 2147483648 in HS.
  destruct (Z_lt_le_dec S 0) as [Hneg | Hpos].
  - assert (Hmod : S mod 4294967296 = S + 4294967296).
    { symmetry. apply Z.mod_unique with (q := -1); lia. }
    rewrite Hmod. destruct (Z.ltb_spec (S + 4294967296) 2147483648); lia.
  - rewrite Z.mod_small by lia.
    destruct (Z.ltb_spec S 2147483648); lia.
Qed.

(** The bits of the stride constant are those of the leading dimension
    reduced to 32 bits, whatever the leading dimension is. *)
Lemma WmmaLoadOpToSPIRVLowering_run
      (TC : Type)
      (getElementPtr : TC -> Ty -> Value -> list Value -> Location -> M Value)
      (converter : TC) (leadDimension : APInt.t) (T : bool)
      (srcMemref : Value) (indices : list Value)
      (memShape : list Z) (memElem : Ty)
      (R C : Z) (E : Ty) (operand : string) (loc : Location)
      (srcMemref' : Value) (indices' : list Value)
      (bufferPtr : Value) (rw rw1 : Rewriter) :
  getType srcMemref = MemRefType memShape memElem ->
  getElementPtr converter (MemRefType memShape memElem) srcMemref' indices'
                loc rw = Ok bufferPtr rw1 ->
  let op := mkOperation (SubgroupMmaLoadMatrixOp leadDimension T)
                        (srcMemref :: indices)
                        [MMAMatrixType [R; C] E operand] loc in
  let strideOp :=
    build_ConstantOp i32Type
      (IntegerAttr i32Type
                   (APInt.make 32 (APInt.getSExtValue leadDimension))) loc in
  let columnMajorOp := build_ConstantOp i1Type (BoolAttr T) loc in
  let loadOp :=
    build_NVCooperativeMatrixLoadOp
      (CooperativeMatrixNVType E Subgroup R C) bufferPtr
      (OpResult i32Type strideOp 0) (OpResult i1Type columnMajorOp 0)
      None loc in
  WmmaLoadOpToSPIRVLowering_matchAndRewrite getElementPtr converter op
                                            (srcMemref' :: indices') rw
  = Ok success
       (replacedBy op loadOp (Create columnMajorOp :: Create strideOp :: rw1)).
Proof.
  intros Hty Hptr op strideOp columnMajorOp loadOp.
  unfold WmmaLoadOpToSPIRVLowering_matchAndRewrite, bind.
  cbn. rewrite Hty. cbn. rewrite Hptr. reflexivity.
Qed.

Lemma WmmaStoreOpToSPIRVLowering_run
      (TC : Type)
      (getElementPtr : TC -> Ty -> Value -> list Value -> Location -> M Value)
      (converter : TC) (leadDimension : APInt.t) (T : bool)
      (src dstMemref : Value) (indices : list Value)
      (memShape : list Z) (memElem : Ty) (loc : Location)
      (src' dstMemref' : Value) (indices' : list Value)
      (bufferPtr : Value) (rw rw1 : Rewriter) :
  getType dstMemref = MemRefType memShape memElem ->
  getElementPtr converter (MemRefType memShape memElem) dstMemref' indices'
                loc rw = Ok bufferPtr rw1 ->
  let op := mkOperation (SubgroupMmaStoreMatrixOp leadDimension T)
                        (src :: dstMemref :: indices) [] loc in
  let strideOp :=
    build_ConstantOp i32Type
      (IntegerAttr i32Type
                   (APInt.make 32 (APInt.getSExtValue leadDimension))) loc in
  let columnMajorOp := build_ConstantOp i1Type (BoolAttr T) loc in
  let storeOp :=
    build_NVCooperativeMatrixStoreOp
      bufferPtr src'
      (OpResult i32Type strideOp 0) (OpResult i1Type columnMajorOp 0)
      None loc in
  WmmaStoreOpToSPIRVLowering_matchAndRewrite getElementPtr converter op
                                             (src' :: dstMemref' :: indices')
                                             rw
  = Ok success
       (replacedBy op storeOp (Create columnMajorOp :: Create strideOp :: rw1)).
Proof.
  intros Hty Hptr op strideOp columnMajorOp storeOp.
  unfold WmmaStoreOpToSPIRVLowering_matchAndRewrite, bind.
  cbn. rewrite Hty. cbn. rewrite Hptr. reflexivity.
Qed.

(** C2, as the code has it.  For every matrix load and every matrix store
    whose leading dimension [S] fits the 32-bit integer type of the stride
    constant, [-2^31 <= S < 2^31], and for every transpose flag [T], the rule
    succeeds once the address is computed; the stride constant of the
    emitted cooperative load or store holds [S] and its column-major
    constant holds [T]. *)
Theorem load_store_stride_and_layout
      (TC : Type)
      (getElementPtr : TC -> Ty -> Value -> list Value -> Location -> M Value)
      (converter : TC) (leadDimension : APInt.t) (T : bool)
      (src memref : Value) (indices : list Value)
      (memShape : list Z) (memElem : Ty)
      (R C : Z) (E : Ty) (operand : string) (loc : Location)
      (src' memref' : Value) (indices' : list Value)
      (bufferPtr : Value) (rw rw1 : Rewriter) :
  let S := APInt.getSExtValue leadDimension in
  - 2 ^ 31 <= S < 2 ^ 31 ->
  getType memref = MemRefType memShape memElem ->
  getElementPtr converter (MemRefType memShape memElem) memref' indices'
                loc rw = Ok bufferPtr rw1 ->
  (exists rw',
      WmmaLoadOpToSPIRVLowering_matchAndRewrite
        getElementPtr converter
        (mkOperation (SubgroupMmaLoadMatrixOp leadDimension T)
                     (memref :: indices) [MMAMatrixType [R; C] E operand] loc)
        (memref' :: indices') rw
      = Ok success rw'
      /\ emittedStride rw' = Some S
      /\ emittedColumnMajor rw' = Some T)
  /\
  (exists rw',
      WmmaStoreOpToSPIRVLowering_matchAndRewrite
        getElementPtr converter
        (mkOperation (SubgroupMmaStoreMatrixOp leadDimension T)
                     (src :: memref :: indices) [] loc)
        (src' :: memref' :: indices') rw
      = Ok success rw'
      /\ emittedStride rw' = Some S
      /\ emittedColumnMajor rw' = Some T).
Proof.
  intros S HS Hty Hptr. split.
  - eexists. split.
    + eapply WmmaLoadOpToSPIRVLowering_run; eassumption.
    + split; [| reflexivity].
      cbn. now rewrite getSExtValue_make_32.
  - eexists. split.
    + eapply WmmaStoreOpToSPIRVLowering_run; eassumption.
    + split; [| reflexivity].
      cbn. now rewrite getSExtValue_make_32.
Qed.

Lemma load_store_stride_and_layout_witness :
  (exists rw',
      WmmaLoadOpToSPIRVLowering_matchAndRewrite
        Sample.getElementPtr tt (Sample.load 16 false)
        [Sample.pointer; Sample.i0; Sample.i0] []
      = Ok success rw'
      /\ emittedStride rw' = Some 16
      /\ emittedColumnMajor rw' = Some false)
  /\
  (exists rw',
      WmmaStoreOpToSPIRVLowering_matchAndRewrite
        Sample.getElementPtr tt
        (Sample.store 16 false)
        [Sample.Y'; Sample.pointer; Sample.i0; Sample.i0] []
      = Ok success rw'
      /\ emittedStride rw' = Some 16
      /\ emittedColumnMajor rw' = Some false).
Proof.
  apply (@load_store_stride_and_layout
           unit Sample.getElementPtr tt (APInt.make 64 16) false
           Sample.Y Sample.memref [Sample.i0; Sample.i0]
           [32; 32] Sample.f32 16 16 Sample.f32 "COp"%string 5%nat
           Sample.Y' Sample.pointer [Sample.i0; Sample.i0]
           Sample.pointer [] []).
  - vm_compute. split; [discriminate | reflexivity].
  - reflexivity.
  - reflexivity.
Defined.

(** C2, as stated, fails.  A load whose leading dimension is [2^32 + 16] is
    lowered with success, and the stride constant of the emitted load holds
    [16], not the leading dimension. *)
Lemma load_stride_truncated :
  let S := 2 ^ 32 + 16 in
  exists rw',
    WmmaLoadOpToSPIRVLowering_matchAndRewrite
      Sample.getElementPtr tt (Sample.load S false)
      [Sample.pointer; Sample.i0; Sample.i0] []
    = Ok success rw'
    /\ APInt.getSExtValue (APInt.make 64 S) = S
    /\ emittedStride rw' = Some 16
    /\ emittedStride rw' <> Some S.
Proof.
  intros S. eexists. split; [lazy; reflexivity |].
  split; [reflexivity |]. split; [reflexivity | discriminate].
Qed.

(* ===================================================================== *)
(** ** The default elementwise rule *)
(* ===================================================================== *)

Lemma spec_supported_target (opType : MMAElementwiseOp) :
  In opType spec_supported <-> spec_target opType <> None.
Proof.
  unfold spec_supported.
  destruct opType; cbn; split; intros H;
    try discriminate; try congruence; try tauto;
    repeat (destruct H as [H | H]; try discriminate H); try contradiction.
Qed.

(** C3.  On an elementwise operation of sub-kind [opType] whose converted
    operands are [adaptor], the default rule succeeds exactly when every
    converted operand has a cooperative matrix type and [opType] is one of
    the ten supported sub-kinds.  When it succeeds it has created the one
    target operation documented for [opType], on the converted operands and
    with the translated result type, and replaced the operation by it; when
    it declines the rewriter is as it was. *)
Theorem WmmaElementwiseOpToSPIRVDefaultLowering_iff
        (opType : MMAElementwiseOp) (operands : list Value)
        (R C : Z) (E : Ty) (operand : string) (loc : Location)
        (adaptor : OpAdaptor) (rw : Rewriter) :
  let op := mkOperation (SubgroupMmaElementwiseOp opType) operands
                        [MMAMatrixType [R; C] E operand] loc in
  let coopType := CooperativeMatrixNVType E Subgroup R C in
  let run :=
    WmmaElementwiseOpToSPIRVDefaultLowering_matchAndRewrite op adaptor rw in
  ((exists rw', run = Ok success rw')
   <-> (allCooperative adaptor = true /\ In opType spec_supported))
  /\ run = (if allCooperative adaptor
            then match spec_target opType with
                 | Some target =>
                     Ok success
                        (replacedBy op
                           (mkOperation target adaptor [coopType] loc) rw)
                 | None => Ok failure rw
                 end
            else Ok failure rw).
Proof.
  intros op coopType run.
  assert (Hrun : run = (if allCooperative adaptor
            then match spec_target opType with
                 | Some target =>
                     Ok success
                        (replacedBy op
                           (mkOperation target adaptor [coopType] loc) rw)
                 | None => Ok failure rw
                 end
            else Ok failure rw)).
  { subst run.
    unfold WmmaElementwiseOpToSPIRVDefaultLowering_matchAndRewrite.
    fold (allCooperative adaptor).
    destruct (allCooperative adaptor); [| reflexivity].
    destruct opType; reflexivity. }
  split; [| exact Hrun].
  rewrite Hrun, spec_supported_target.
  destruct (allCooperative adaptor).
  - destruct (spec_target opType) as [target |].
    + split; [intros _; split; [reflexivity | discriminate] | eauto].
    + split; [intros [rw' H]; discriminate H | intros [_ H]; now elim H].
  - split; [intros [rw' H]; discriminate H | intros [H _]; discriminate H].
Qed.

(* ===================================================================== *)
(** ** The scalar-multiply fusion rule *)
(* ===================================================================== *)

(** The run of the rule on an elementwise operation of two operands, in
    closed form. *)
Lemma WmmaElementwiseOpToSPIRVScalarMulLowering_run
      (opType : MMAElementwiseOp) (lhs rhs : Value)
      (R C : Z) (E : Ty) (operand : string) (loc : Location)
      (x' y' : Value) (rw : Rewriter) :
  let op := mkOperation (SubgroupMmaElementwiseOp opType) [lhs; rhs]
                        [MMAMatrixType [R; C] E operand] loc in
  let coopType := CooperativeMatrixNVType E Subgroup R C in
  WmmaElementwiseOpToSPIRVScalarMulLowering_matchAndRewrite op [x'; y'] rw
  = if negb (allCooperative [x'; y']) then Ok failure rw
    else if negb (isMULF opType) then Ok failure rw
    else match chooseSplat lhs rhs x' y' with
         | None => Ok failure rw
         | Some (splat, matrix) =>
             match getDefiningOp_CompositeConstructOp splat with
             | None => Ok failure rw
             | Some cc =>
                 match getConstituents cc with
                 | [scalar] =>
                     Ok success
                        (replacedBy op
                           (mkOperation spirv_MatrixTimesScalarOp
                                        [matrix; scalar] [coopType] loc) rw)
                 | _ => Abort "cc.getConstituents().size() == 1"%string
                 end
             end
         end.
Proof.
  intros op coopType.
  unfold WmmaElementwiseOpToSPIRVScalarMulLowering_matchAndRewrite.
  change (Nat.eqb (List.length [x'; y']) 2) with true. cbv beta iota delta [negb].
  fold (allCooperative [x'; y']).
  destruct (allCooperative [x'; y']); [| reflexivity].
  unfold chooseSplat.
  destruct opType; try reflexivity.
  cbn.
  destruct (isSome (getDefiningOp_SubgroupMmaConstantMatrixOp lhs)).
  - cbn. destruct (getDefiningOp_CompositeConstructOp x') as [cc |];
      [| reflexivity].
    unfold bind, assert_. destruct (getConstituents cc) as [| s [| s2 l]];
      reflexivity.
  - destruct (isSome (getDefiningOp_SubgroupMmaConstantMatrixOp rhs)).
    + cbn. destruct (getDefiningOp_CompositeConstructOp y') as [cc |];
        [| reflexivity].
      unfold bind, assert_. destruct (getConstituents cc) as [| s [| s2 l]];
        reflexivity.
    + reflexivity.
Qed.

(** C1.  Take a float multiply of two operands, both already lowered to
    cooperative matrix values, of which exactly one, [X], is the result of a
    constant-matrix operation, its lowered form [X'] being a composite
    construct of one scalar [k]; [Y] is the other operand and [Y'] its
    lowered form.  Whether [X] is the left or the right operand, the rule
    creates one [MatrixTimesScalar] on [(Y', k)] and replaces the multiply by
    it.  And on a float multiply neither operand of which is the result of a
    constant-matrix operation the rule declines, the rewriter unchanged. *)
Theorem scalar_fusion_one_constant_operand
        (X Y X' Y' k : Value) (cc : Operation)
        (lhs rhs : Value) (adaptor : OpAdaptor) (resultTypes : list Ty)
        (R C : Z) (E : Ty) (operand : string) (loc : Location)
        (rw : Rewriter) :
  getDefiningOp_SubgroupMmaConstantMatrixOp X <> None ->
  getDefiningOp_SubgroupMmaConstantMatrixOp Y = None ->
  isa_CooperativeMatrixNVType (getType X') = true ->
  isa_CooperativeMatrixNVType (getType Y') = true ->
  getDefiningOp_CompositeConstructOp X' = Some cc ->
  getConstituents cc = [k] ->
  getDefiningOp_SubgroupMmaConstantMatrixOp lhs = None ->
  getDefiningOp_SubgroupMmaConstantMatrixOp rhs = None ->
  let mulf a b := mkOperation (SubgroupMmaElementwiseOp MULF) [a; b]
                              [MMAMatrixType [R; C] E operand] loc in
  let timesScalar :=
    mkOperation spirv_MatrixTimesScalarOp [Y'; k]
                [CooperativeMatrixNVType E Subgroup R C] loc in
  WmmaElementwiseOpToSPIRVScalarMulLowering_matchAndRewrite
    (mulf X Y) [X'; Y'] rw
  = Ok success (replacedBy (mulf X Y) timesScalar rw)
  /\ WmmaElementwiseOpToSPIRVScalarMulLowering_matchAndRewrite
       (mulf Y X) [Y'; X'] rw
     = Ok success (replacedBy (mulf Y X) timesScalar rw)
  /\ WmmaElementwiseOpToSPIRVScalarMulLowering_matchAndRewrite
       (mkOperation (SubgroupMmaElementwiseOp MULF) [lhs; rhs] resultTypes
                    loc)
       adaptor rw
     = Ok failure rw.
Proof.
  intros HX HY HX' HY' Hcc Hk Hlhs Hrhs mulf timesScalar.
  assert (HXs : isSome (getDefiningOp_SubgroupMmaConstantMatrixOp X) = true)
    by (destruct (getDefiningOp_SubgroupMmaConstantMatrixOp X);
        [reflexivity | now elim HX]).
  repeat split.
  - unfold mulf. rewrite WmmaElementwiseOpToSPIRVScalarMulLowering_run.
    unfold allCooperative, chooseSplat. cbn [forallb].
    rewrite HX', HY', HXs, Hcc, Hk. reflexivity.
  - unfold mulf. rewrite WmmaElementwiseOpToSPIRVScalarMulLowering_run.
    unfold allCooperative, chooseSplat. cbn [forallb].
    rewrite HX', HY', HY. cbn [isSome andb negb].
    rewrite HXs, Hcc, Hk. reflexivity.
  - unfold WmmaElementwiseOpToSPIRVScalarMulLowering_matchAndRewrite.
    destruct (negb (Nat.eqb (List.length adaptor) 2)); [reflexivity |].
    destruct (negb (forallb _ adaptor)); [reflexivity |].
    cbn. rewrite Hlhs, Hrhs. reflexivity.
Qed.

Lemma scalar_fusion_one_constant_operand_witness :
  let timesScalar :=
    mkOperation spirv_MatrixTimesScalarOp [Sample.Y'; Sample.k]
                [Sample.coopType] 9%nat in
  WmmaElementwiseOpToSPIRVScalarMulLowering_matchAndRewrite
    (Sample.mulf Sample.X Sample.Y) [Sample.X'; Sample.Y'] []
  = Ok success (replacedBy (Sample.mulf Sample.X Sample.Y) timesScalar [])
  /\ WmmaElementwiseOpToSPIRVScalarMulLowering_matchAndRewrite
       (Sample.mulf Sample.Y Sample.X) [Sample.Y'; Sample.X'] []
     = Ok success (replacedBy (Sample.mulf Sample.Y Sample.X) timesScalar [])
  /\ WmmaElementwiseOpToSPIRVScalarMulLowering_matchAndRewrite
       (Sample.mulf Sample.Y Sample.Y) [Sample.Y'; Sample.Y'] []
     = Ok failure [].
Proof.
  apply (@scalar_fusion_one_constant_operand
           Sample.X Sample.Y Sample.X' Sample.Y' Sample.k Sample.ccOp
           Sample.Y Sample.Y [Sample.Y'; Sample.Y'] [Sample.matrixType]
           16 16 Sample.f32 "COp"%string 9%nat []).
  - discriminate.
  - reflexivity.
  - reflexivity.
  - reflexivity.
  - reflexivity.
  - reflexivity.
  - reflexivity.
  - reflexivity.
Defined.

(** C10.  When both original operands of the float multiply are results of
    constant-matrix operations, the left one is taken as the splat: with the
    lowered left operand a composite construct of one scalar [k], the rule
    creates [MatrixTimesScalar] on the lowered right operand and [k]. *)
Theorem scalar_fusion_both_constant_left_is_splat
        (lhs rhs lhs' rhs' k : Value) (cc : Operation)
        (R C : Z) (E : Ty) (operand : string) (loc : Location)
        (rw : Rewriter) :
  getDefiningOp_SubgroupMmaConstantMatrixOp lhs <> None ->
  getDefiningOp_SubgroupMmaConstantMatrixOp rhs <> None ->
  isa_CooperativeMatrixNVType (getType lhs') = true ->
  isa_CooperativeMatrixNVType (getType rhs') = true ->
  getDefiningOp_CompositeConstructOp lhs' = Some cc ->
  getConstituents cc = [k] ->
  let op := mkOperation (SubgroupMmaElementwiseOp MULF) [lhs; rhs]
                        [MMAMatrixType [R; C] E operand] loc in
  WmmaElementwiseOpToSPIRVScalarMulLowering_matchAndRewrite op [lhs'; rhs'] rw
  = Ok success
       (replacedBy op
          (mkOperation spirv_MatrixTimesScalarOp [rhs'; k]
                       [CooperativeMatrixNVType E Subgroup R C] loc) rw).
Proof.
  intros Hl _ Hl' Hr' Hcc Hk op.
  unfold op. rewrite WmmaElementwiseOpToSPIRVScalarMulLowering_run.
  unfold allCooperative, chooseSplat. cbn [forallb].
  rewrite Hl', Hr'.
  destruct (getDefiningOp_SubgroupMmaConstantMatrixOp lhs);
    [| now elim Hl].
  cbn [isSome andb negb]. rewrite Hcc, Hk. reflexivity.
Qed.

Lemma scalar_fusion_both_constant_left_is_splat_witness :
  WmmaElementwiseOpToSPIRVScalarMulLowering_matchAndRewrite
    (Sample.mulf Sample.X Sample.Z2) [Sample.X'; Sample.Z2'] []
  = Ok success
       (replacedBy (Sample.mulf Sample.X Sample.Z2)
          (mkOperation spirv_MatrixTimesScalarOp [Sample.Z2'; Sample.k]
                       [Sample.coopType] 9%nat) []).
Proof.
  apply (@scalar_fusion_both_constant_left_is_splat
           Sample.X Sample.Z2 Sample.X' Sample.Z2' Sample.k Sample.ccOp
           16 16 Sample.f32 "COp"%string 9%nat []).
  - discriminate.
  - discriminate.
  - reflexivity.
  - reflexivity.
  - reflexivity.
  - reflexivity.
Defined.

(** *** Inversion of runs *)

Lemma bind_Ok_inv {A B} (c : M A) (k : A -> M B) rw b rw' :
  bind c k rw = Ok b rw' ->
  exists a rw1, c rw = Ok a rw1 /\ k a rw1 = Ok b rw'.
Proof.
  unfold bind. destruct (c rw) as [a rw1 | r]; [eauto | discriminate].
Qed.

Lemma expect_Ok_inv {A} (o : option A) what rw a rw' :
  expect o what rw = Ok a rw' -> o = Some a /\ rw' = rw.
Proof.
  destruct o; cbn; intros H; inversion H; auto.
Qed.

Lemma getOpType_Ok_inv op rw t rw' :
  getOpType op rw = Ok t rw' ->
  getKind op = SubgroupMmaElementwiseOp t /\ rw' = rw.
Proof.
  unfold getOpType. destruct (getKind op); cbn; intros H; inversion H; auto.
Qed.

Lemma cast_MMAMatrixType_Ok_inv type rw t rw' :
  cast_MMAMatrixType type rw = Ok t rw' -> t = type /\ rw' = rw.
Proof.
  destruct type; cbn; intros H; inversion H; auto.
Qed.

Lemma assert_Ok_inv cond what rw u rw' :
  assert_ cond what rw = Ok u rw' -> cond = true /\ rw' = rw.
Proof.
  destruct cond; cbn; intros H; inversion H; auto.
Qed.

Lemma length_one_inv {A} (l : list A) :
  Nat.eqb (List.length l) 1 = true -> exists a, l = [a].
Proof.
  destruct l as [| a [| b l]]; cbn; try discriminate; eauto.
Qed.

(** One step of inversion of a run that returned. *)
Ltac invert_bind H :=
  cbv beta zeta in H;
  let a := fresh "a" in
  let rw1 := fresh "rw" in
  let Ha := fresh "Hstep" in
  apply bind_Ok_inv in H as (a & rw1 & Ha & H).

Ltac never_failure H :=
  repeat invert_bind H; cbv beta zeta in H; discriminate H.

(** Every success of the fusion rule went through the one path that
    replaces: two converted operands, a splat chosen from the original
    operands, defined by a composite construct of exactly one constituent. *)
Lemma WmmaElementwiseOpToSPIRVScalarMulLowering_success_inv
      (op : Operation) (adaptor : OpAdaptor) (rw rw' : Rewriter) :
  WmmaElementwiseOpToSPIRVScalarMulLowering_matchAndRewrite op adaptor rw
  = Ok success rw' ->
  exists lhs rhs x' y' splat matrix cc scalar coopType,
    hd_error (getOperands op) = Some lhs
    /\ hd_error (rev (getOperands op)) = Some rhs
    /\ adaptor = [x'; y']
    /\ chooseSplat lhs rhs x' y' = Some (splat, matrix)
    /\ getDefiningOp_CompositeConstructOp splat = Some cc
    /\ getConstituents cc = [scalar]
    /\ rw' = replacedBy op
               (mkOperation spirv_MatrixTimesScalarOp [matrix; scalar]
                            [coopType] (getLoc op)) rw.
Proof.
  unfold WmmaElementwiseOpToSPIRVScalarMulLowering_matchAndRewrite.
  destruct adaptor as [| x' [| y' [| z' adaptor]]]; try discriminate.
  cbn [List.length Nat.eqb negb].
  destruct (negb (forallb _ [x'; y'])); [discriminate |].
  intros H.
  apply bind_Ok_inv in H as (opType & rw1 & HopType & H).
  apply getOpType_Ok_inv in HopType as [_ ->].
  destruct (negb (isMULF opType)); [discriminate |].
  apply bind_Ok_inv in H as (lhs & rw1 & Hlhs & H).
  apply expect_Ok_inv in Hlhs as [Hlhs ->].
  apply bind_Ok_inv in H as (rhs & rw1 & Hrhs & H).
  apply expect_Ok_inv in Hrhs as [Hrhs ->].
  apply bind_Ok_inv in H as ([splat matrix] & rw1 & Hchoose & H).
  assert (Hpair : rw1 = rw /\
                  match splat, matrix with
                  | Some s, Some m => chooseSplat lhs rhs x' y' = Some (s, m)
                  | _, _ => True
                  end).
  { unfold chooseSplat.
    destruct (isSome (getDefiningOp_SubgroupMmaConstantMatrixOp lhs));
      [cbn in Hchoose; inversion Hchoose; auto |].
    destruct (isSome (getDefiningOp_SubgroupMmaConstantMatrixOp rhs));
      cbn in Hchoose; inversion Hchoose; auto. }
  destruct Hpair as [-> Hpair].
  destruct splat as [splat |]; [| discriminate].
  destruct matrix as [matrix |]; [| discriminate].
  destruct (getDefiningOp_CompositeConstructOp splat) as [cc |] eqn:Hcc;
    [| discriminate].
  apply bind_Ok_inv in H as (u & rw1 & Hassert & H).
  apply assert_Ok_inv in Hassert as [Hone ->].
  apply length_one_inv in Hone as [scalar Hone].
  rewrite Hone in H.
  apply bind_Ok_inv in H as (scalar0 & rw1 & Hfront & H).
  apply expect_Ok_inv in Hfront as [Hfront ->].
  cbn in Hfront. inversion Hfront; subst scalar0.
  apply bind_Ok_inv in H as (res & rw1 & Hres & H).
  apply expect_Ok_inv in Hres as [_ ->].
  apply bind_Ok_inv in H as (type & rw1 & Htype & H).
  apply cast_MMAMatrixType_Ok_inv in Htype as [_ ->].
  apply bind_Ok_inv in H as (coopType & rw1 & Hcoop & H).
  apply convertMMAToSPIRVCoopMatrixNVType_readsOnly in Hcoop as ->.
  cbn in H. inversion H.
  exists lhs, rhs, x', y', splat, matrix, cc, scalar, coopType.
  repeat split; auto.
Qed.

(** Whatever a build with assertions returns, a build without them returns
    too: the two builds differ only on the inputs that fail the assertion. *)
Lemma WmmaElementwiseOpToSPIRVScalarMulLowering_NDEBUG_agrees
      (op : Operation) (adaptor : OpAdaptor) (rw : Rewriter)
      (r : LogicalResult) (rw' : Rewriter) :
  WmmaElementwiseOpToSPIRVScalarMulLowering_matchAndRewrite op adaptor rw
  = Ok r rw' ->
  WmmaElementwiseOpToSPIRVScalarMulLowering_matchAndRewrite_NDEBUG
    op adaptor rw
  = Ok r rw'.
Proof.
  unfold WmmaElementwiseOpToSPIRVScalarMulLowering_matchAndRewrite,
    WmmaElementwiseOpToSPIRVScalarMulLowering_matchAndRewrite_NDEBUG.
  destruct (negb (Nat.eqb (List.length adaptor) 2)); [trivial |].
  destruct (negb (forallb _ adaptor)); [trivial |].
  unfold bind.
  destruct (getOpType op rw) as [opType rw1 | reason]; [| discriminate].
  destruct (negb (isMULF opType)); [trivial |].
  destruct (front (getOperands op) rw1) as [lhs rw2 | reason];
    [| discriminate].
  destruct (back (getOperands op) rw2) as [rhs rw3 | reason];
    [| discriminate].
  match goal with
  | |- match ?choose with _ => _ end = _ -> _ =>
      destruct choose as [[splat matrix] rw4 | reason]; [| discriminate]
  end.
  destruct splat as [splat |]; [| trivial].
  destruct matrix as [matrix |]; [| trivial].
  destruct (getDefiningOp_CompositeConstructOp splat) as [cc |]; [| trivial].
  unfold assert_.
  destruct (Nat.eqb (List.length (getConstituents cc)) 1);
    [trivial | discriminate].
Qed.


(* ===================================================================== *)
(** ** Registration and dispatch *)
(* ===================================================================== *)

(** C7.  The registration entry point appends the load, multiply-accumulate,
    store, constant-matrix and default elementwise patterns with the baseline
    benefit 1, and the scalar-multiply fusion pattern with benefit 2; hence
    among the registered patterns the candidates for an elementwise
    operation, a float multiply in particular, are the fusion pattern first
    and the default pattern second. *)
Theorem populate_benefits
        (TC : Type) (converter : TC) (patterns : RewritePatternSet TC)
        (opType : MMAElementwiseOp) (operands : list Value)
        (resultTypes : list Ty) (loc : Location) :
  populateGpuWMMAToSPIRVCoopMatrixNVConversionPatterns converter patterns
  = patterns
      ++ [mkPattern WmmaLoadOpToSPIRVLowering converter 1;
          mkPattern WmmaMmaOpToSPIRVLowering converter 1;
          mkPattern WmmaStoreOpToSPIRVLowering converter 1;
          mkPattern WmmaConstantOpToSPIRVLowering converter 1;
          mkPattern WmmaElementwiseOpToSPIRVDefaultLowering converter 1;
          mkPattern WmmaElementwiseOpToSPIRVScalarMulLowering converter 2]
  /\ candidates
       (populateGpuWMMAToSPIRVCoopMatrixNVConversionPatterns converter [])
       (mkOperation (SubgroupMmaElementwiseOp opType) operands resultTypes
                    loc)
     = [mkPattern WmmaElementwiseOpToSPIRVScalarMulLowering converter 2;
        mkPattern WmmaElementwiseOpToSPIRVDefaultLowering converter 1].
Proof.
  split; [| reflexivity].
  unfold populateGpuWMMAToSPIRVCoopMatrixNVConversionPatterns, add.
  now rewrite <- app_assoc.
Qed.

(** No registered pattern is rooted at an operation of the target dialect. *)
Lemma no_candidate_for_target_operation
      (TC : Type) (converter : TC) (op : Operation) :
  getDialect (getKind op) = spirv ->
  candidates
    (populateGpuWMMAToSPIRVCoopMatrixNVConversionPatterns converter []) op
  = [].
Proof.
  unfold candidates. cbn [populateGpuWMMAToSPIRVCoopMatrixNVConversionPatterns
                           add app map filter patternId].
  destruct (getKind op); cbn; intros H; try discriminate H; reflexivity.
Qed.

(** C9.  On a fragment all of whose operations are of the target (SPIR-V)
    dialect, a pass of the registered rule set rewrites nothing: no
    registered pattern has any of these operations as its source operation,
    every operation is left unmatched and the rewriter is unchanged. *)
Theorem lowered_fragment_is_fixed
        (TC : Type)
        (getElementPtr : TC -> Ty -> Value -> list Value -> Location -> M Value)
        (converter : TC) (fragment : list (Operation * list Value))
        (rw : Rewriter) :
  Forall (fun item => getDialect (getKind (fst item)) = spirv) fragment ->
  let patterns :=
    populateGpuWMMAToSPIRVCoopMatrixNVConversionPatterns converter [] in
  Forall (fun item =>
            forall p, In p patterns ->
                      isa_SourceOp (patternId p) (getKind (fst item)) = false)
         fragment
  /\ applyToFragment getElementPtr patterns fragment rw
     = Ok (map (fun _ => failure) fragment) rw.
Proof.
  intros Hall patterns. split.
  - eapply Forall_impl; [| exact Hall].
    intros [op operands] Hop p Hp. cbn [fst] in *.
    cbn in Hp.
    destruct Hp as [<- | [<- | [<- | [<- | [<- | [<- | []]]]]]];
      destruct (getKind op); cbn in *; try discriminate Hop; reflexivity.
  - induction Hall as [| [op operands] fragment Hop Hall IH];
      [reflexivity |].
    cbn [applyToFragment map]. unfold bind, applyPatterns.
    cbn [fst] in Hop. subst patterns.
    rewrite (no_candidate_for_target_operation converter op Hop).
    cbn [tryPatterns]. unfold ret at 1. unfold bind in IH. rewrite IH.
    reflexivity.
Qed.

Lemma lowered_fragment_is_fixed_witness :
  let fragment :=
    [(Sample.ccOp, [Sample.k]);
     (mkOperation spirv_MatrixTimesScalarOp [Sample.Y'; Sample.k]
                  [Sample.coopType] 9%nat, [Sample.Y'; Sample.k])] in
  let patterns :=
    populateGpuWMMAToSPIRVCoopMatrixNVConversionPatterns tt [] in
  Forall (fun item =>
            forall p, In p patterns ->
                      isa_SourceOp (patternId p) (getKind (fst item)) = false)
         fragment
  /\ applyToFragment Sample.getElementPtr patterns fragment []
     = Ok [failure; failure] [].
Proof.
  apply (@lowered_fragment_is_fixed unit Sample.getElementPtr tt
           [(Sample.ccOp, [Sample.k]);
            (mkOperation spirv_MatrixTimesScalarOp [Sample.Y'; Sample.k]
                         [Sample.coopType] 9%nat, [Sample.Y'; Sample.k])]
           []).
  repeat constructor.
Defined.

(* ===================================================================== *)
(** ** Declines are atomic *)
(* ===================================================================== *)

Lemma WmmaLoadOpToSPIRVLowering_neverDeclines
      (TC : Type)
      (getElementPtr : TC -> Ty -> Value -> list Value -> Location -> M Value)
      (converter : TC) (op : Operation) (adaptor : OpAdaptor) :
  neverDeclines
    (WmmaLoadOpToSPIRVLowering_matchAndRewrite getElementPtr converter op
                                               adaptor).
Proof.
  intros rw rw' H.
  unfold WmmaLoadOpToSPIRVLowering_matchAndRewrite in H.
  never_failure H.
Qed.

Lemma WmmaStoreOpToSPIRVLowering_neverDeclines
      (TC : Type)
      (getElementPtr : TC -> Ty -> Value -> list Value -> Location -> M Value)
      (converter : TC) (op : Operation) (adaptor : OpAdaptor) :
  neverDeclines
    (WmmaStoreOpToSPIRVLowering_matchAndRewrite getElementPtr converter op
                                                adaptor).
Proof.
  intros rw rw' H.
  unfold WmmaStoreOpToSPIRVLowering_matchAndRewrite in H.
  never_failure H.
Qed.

Lemma WmmaMmaOpToSPIRVLowering_neverDeclines
      (op : Operation) (adaptor : OpAdaptor) :
  neverDeclines (WmmaMmaOpToSPIRVLowering_matchAndRewrite op adaptor).
Proof.
  intros rw rw' H.
  unfold WmmaMmaOpToSPIRVLowering_matchAndRewrite in H.
  never_failure H.
Qed.

Lemma WmmaConstantOpToSPIRVLowering_neverDeclines
      (op : Operation) (adaptor : OpAdaptor) :
  neverDeclines (WmmaConstantOpToSPIRVLowering_matchAndRewrite op adaptor).
Proof.
  intros rw rw' H.
  unfold WmmaConstantOpToSPIRVLowering_matchAndRewrite in H.
  never_failure H.
Qed.

Lemma neverDeclines_atomic (c : M LogicalResult) :
  neverDeclines c -> declinesAtomically c.
Proof. intros Hc rw rw' H. now elim (Hc rw rw'). Qed.

(** [createElementwiseOp] touches the rewriter only when it returns true. *)
Lemma createElementwiseOp_false
      (op : Operation) (coopType : Ty) (operands : list Value)
      (rw rw' : Rewriter) :
  createElementwiseOp op coopType operands rw = Ok false rw' -> rw' = rw.
Proof.
  unfold createElementwiseOp. intros H.
  apply bind_Ok_inv in H as (opType & rw1 & HopType & H).
  apply getOpType_Ok_inv in HopType as [_ ->].
  destruct opType; cbn in H; inversion H; reflexivity.
Qed.

Lemma WmmaElementwiseOpToSPIRVDefaultLowering_atomic
      (op : Operation) (adaptor : OpAdaptor) :
  declinesAtomically
    (WmmaElementwiseOpToSPIRVDefaultLowering_matchAndRewrite op adaptor).
Proof.
  intros rw rw' H.
  unfold WmmaElementwiseOpToSPIRVDefaultLowering_matchAndRewrite in H.
  destruct (negb (forallb _ adaptor)); [now inversion H |].
  apply bind_Ok_inv in H as (res & rw1 & Hres & H).
  apply expect_Ok_inv in Hres as [_ ->].
  apply bind_Ok_inv in H as (type & rw1 & Htype & H).
  apply cast_MMAMatrixType_Ok_inv in Htype as [_ ->].
  apply bind_Ok_inv in H as (coopType & rw1 & Hcoop & H).
  apply convertMMAToSPIRVCoopMatrixNVType_readsOnly in Hcoop as ->.
  apply bind_Ok_inv in H as (created & rw1 & Hcreated & H).
  destruct created; cbn in H; inversion H; subst.
  now apply createElementwiseOp_false in Hcreated.
Qed.

Lemma WmmaElementwiseOpToSPIRVScalarMulLowering_atomic
      (op : Operation) (adaptor : OpAdaptor) :
  declinesAtomically
    (WmmaElementwiseOpToSPIRVScalarMulLowering_matchAndRewrite op adaptor).
Proof.
  intros rw rw' H.
  unfold WmmaElementwiseOpToSPIRVScalarMulLowering_matchAndRewrite in H.
  destruct (negb (Nat.eqb (List.length adaptor) 2)); [now inversion H |].
  destruct (negb (forallb _ adaptor)); [now inversion H |].
  apply bind_Ok_inv in H as (opType & rw1 & HopType & H).
  apply getOpType_Ok_inv in HopType as [_ ->].
  destruct (negb (isMULF opType)); [now inversion H |].
  apply bind_Ok_inv in H as (lhs & rw1 & Hlhs & H).
  apply expect_Ok_inv in Hlhs as [_ ->].
  apply bind_Ok_inv in H as (rhs & rw1 & Hrhs & H).
  apply expect_Ok_inv in Hrhs as [_ ->].
  apply bind_Ok_inv in H as ([splat matrix] & rw1 & Hchoose & H).
  assert (Hrw : rw1 = rw).
  { destruct (isSome (getDefiningOp_SubgroupMmaConstantMatrixOp lhs)).
    - apply bind_Ok_inv in Hchoose as (s & rw2 & Hs & Hchoose).
      apply expect_Ok_inv in Hs as [_ ->].
      apply bind_Ok_inv in Hchoose as (m & rw2 & Hm & Hchoose).
      apply expect_Ok_inv in Hm as [_ ->].
      now inversion Hchoose.
    - destruct (isSome (getDefiningOp_SubgroupMmaConstantMatrixOp rhs)).
      + apply bind_Ok_inv in Hchoose as (m & rw2 & Hm & Hchoose).
        apply expect_Ok_inv in Hm as [_ ->].
        apply bind_Ok_inv in Hchoose as (s & rw2 & Hs & Hchoose).
        apply expect_Ok_inv in Hs as [_ ->].
        now inversion Hchoose.
      + now inversion Hchoose. }
  subst rw1.
  destruct splat as [splat |]; [| now inversion H].
  destruct matrix as [matrix |]; [| now inversion H].
  destruct (getDefiningOp_CompositeConstructOp splat) as [cc |];
    [| now inversion H].
  never_failure H.
Qed.

Lemma rewriteWith_declinesAtomically
      (TC : Type)
      (getElementPtr : TC -> Ty -> Value -> list Value -> Location -> M Value)
      (p : ConversionPattern TC) (op : Operation) (adaptor : OpAdaptor) :
  declinesAtomically (rewriteWith getElementPtr p op adaptor).
Proof.
  unfold rewriteWith. destruct (patternId p).
  - apply neverDeclines_atomic, WmmaLoadOpToSPIRVLowering_neverDeclines.
  - apply neverDeclines_atomic, WmmaStoreOpToSPIRVLowering_neverDeclines.
  - apply neverDeclines_atomic, WmmaMmaOpToSPIRVLowering_neverDeclines.
  - apply neverDeclines_atomic, WmmaConstantOpToSPIRVLowering_neverDeclines.
  - apply WmmaElementwiseOpToSPIRVDefaultLowering_atomic.
  - apply WmmaElementwiseOpToSPIRVScalarMulLowering_atomic.
Qed.

(** The same through the entry the driver calls, and through a whole round
    of trials: when every candidate declined, the rewriter is unchanged. *)
Lemma matchAndRewrite_declinesAtomically
      (TC : Type)
      (getElementPtr : TC -> Ty -> Value -> list Value -> Location -> M Value)
      (p : ConversionPattern TC) (op : Operation) (operands : list Value) :
  declinesAtomically (matchAndRewrite getElementPtr p op operands).
Proof.
  unfold matchAndRewrite.
  destruct (isa_SourceOp (patternId p) (getKind op)).
  - apply rewriteWith_declinesAtomically.
  - intros rw rw' H. discriminate H.
Qed.

Lemma tryPatterns_declinesAtomically
      (TC : Type)
      (getElementPtr : TC -> Ty -> Value -> list Value -> Location -> M Value)
      (ps : list (ConversionPattern TC)) (op : Operation)
      (operands : list Value) :
  declinesAtomically (tryPatterns getElementPtr ps op operands).
Proof.
  induction ps as [| p ps IH]; intros rw rw' H.
  - now inversion H.
  - cbn [tryPatterns] in H.
    apply bind_Ok_inv in H as (r & rw1 & Hr & H).
    destruct r; [discriminate H |].
    apply matchAndRewrite_declinesAtomically in Hr. subst rw1.
    now apply IH.
Qed.

(** C8.  Whatever the pattern of the file, the operation, its converted
    operands and the rewriter, a run of the pattern that returns [failure]
    leaves the rewriter exactly as it found it: nothing was created and
    nothing was replaced. *)
Theorem every_decline_is_atomic
        (TC : Type)
        (getElementPtr : TC -> Ty -> Value -> list Value -> Location -> M Value)
        (p : ConversionPattern TC) (op : Operation) (adaptor : OpAdaptor)
        (rw rw' : Rewriter) :
  rewriteWith getElementPtr p op adaptor rw = Ok failure rw' ->
  rw' = rw.
Proof.
  apply rewriteWith_declinesAtomically.
Qed.

Lemma every_decline_is_atomic_witness :
  let rw := [Create Sample.ccOp] in
  rewriteWith Sample.getElementPtr
              (mkPattern WmmaElementwiseOpToSPIRVScalarMulLowering tt 2)
              (Sample.mulf Sample.Y Sample.Y) [Sample.Y'; Sample.Y'] rw
  = Ok failure rw
  /\ rw = rw.
Proof.
  split; [reflexivity |].
  apply (@every_decline_is_atomic
           unit Sample.getElementPtr
           (mkPattern WmmaElementwiseOpToSPIRVScalarMulLowering tt 2)
           (Sample.mulf Sample.Y Sample.Y) [Sample.Y'; Sample.Y']
           [Create Sample.ccOp] [Create Sample.ccOp]).
  reflexivity.
Defined.

(* ===================================================================== *)
(** ** The constant-matrix rule and what the fusion rule makes of it *)
(* ===================================================================== *)

(** X1.  For every constant-matrix operation whose result is an MMA matrix
    type of shape [(R, C)] and element type [E], the rule succeeds: it
    creates one [CompositeConstruct] of the translated type whose only
    constituent is the first converted operand, and replaces the operation by
    its result; further converted operands are not looked at. *)
Theorem WmmaConstantOpToSPIRVLowering_emits
        (operands : list Value) (R C : Z) (E : Ty) (operand : string)
        (loc : Location) (cst : Value) (rest : list Value) (rw : Rewriter) :
  let op := mkOperation SubgroupMmaConstantMatrixOp operands
                        [MMAMatrixType [R; C] E operand] loc in
  let coopType := CooperativeMatrixNVType E Subgroup R C in
  let cc := mkOperation spirv_CompositeConstructOp [cst] [coopType] loc in
  WmmaConstantOpToSPIRVLowering_matchAndRewrite op (cst :: rest) rw
  = Ok success (ReplaceOp op [OpResult coopType cc 0] :: Create cc :: rw)
  /\ getDefiningOp_CompositeConstructOp (OpResult coopType cc 0) = Some cc
  /\ getConstituents cc = [cst].
Proof. repeat split. Qed.

(** X2.  The two rules compose.  Let a constant-matrix operation splat the
    scalar [k], and let the constant-matrix rule lower it, [k'] being the
    converted scalar: the value [X'] it puts in place of the constant matrix
    is accepted by the fusion rule.  A float multiply of that constant matrix
    and a matrix [Y] that is not a constant matrix, lowered to the
    cooperative matrix [Y'], is replaced by [MatrixTimesScalar] on
    [(Y', k')], on whichever side the constant matrix stands; the assertion
    on the number of constituents never fails on the way. *)
Theorem constant_rule_feeds_scalar_fusion
        (k k' Y Y' : Value)
        (R C : Z) (E : Ty) (operand : string) (locC : Location)
        (R2 C2 : Z) (E2 : Ty) (operand2 : string) (loc : Location)
        (rw0 rw : Rewriter) :
  getDefiningOp_SubgroupMmaConstantMatrixOp Y = None ->
  isa_CooperativeMatrixNVType (getType Y') = true ->
  let matrixType := MMAMatrixType [R; C] E operand in
  let coopType := CooperativeMatrixNVType E Subgroup R C in
  let splatOp :=
    mkOperation SubgroupMmaConstantMatrixOp [k] [matrixType] locC in
  let X := OpResult matrixType splatOp 0 in
  let cc := mkOperation spirv_CompositeConstructOp [k'] [coopType] locC in
  let X' := OpResult coopType cc 0 in
  let mulf a b := mkOperation (SubgroupMmaElementwiseOp MULF) [a; b]
                              [MMAMatrixType [R2; C2] E2 operand2] loc in
  let timesScalar :=
    mkOperation spirv_MatrixTimesScalarOp [Y'; k']
                [CooperativeMatrixNVType E2 Subgroup R2 C2] loc in
  WmmaConstantOpToSPIRVLowering_matchAndRewrite splatOp [k'] rw0
  = Ok success (ReplaceOp splatOp [X'] :: Create cc :: rw0)
  /\ WmmaElementwiseOpToSPIRVScalarMulLowering_matchAndRewrite
       (mulf X Y) [X'; Y'] rw
     = Ok success (replacedBy (mulf X Y) timesScalar rw)
  /\ WmmaElementwiseOpToSPIRVScalarMulLowering_matchAndRewrite
       (mulf Y X) [Y'; X'] rw
     = Ok success (replacedBy (mulf Y X) timesScalar rw).
Proof.
  intros HY HY' matrixType coopType splatOp X cc X' mulf timesScalar.
  split; [reflexivity |]. split.
  - unfold mulf. rewrite WmmaElementwiseOpToSPIRVScalarMulLowering_run.
    unfold allCooperative, chooseSplat. cbn [forallb].
    rewrite HY'. reflexivity.
  - unfold mulf. rewrite WmmaElementwiseOpToSPIRVScalarMulLowering_run.
    unfold allCooperative, chooseSplat. cbn [forallb].
    rewrite HY', HY. reflexivity.
Qed.

Lemma constant_rule_feeds_scalar_fusion_witness :
  WmmaConstantOpToSPIRVLowering_matchAndRewrite Sample.splatOp [Sample.k] []
  = Ok success
       [ReplaceOp Sample.splatOp [Sample.X']; Create Sample.ccOp]
  /\ WmmaElementwiseOpToSPIRVScalarMulLowering_matchAndRewrite
       (Sample.mulf Sample.X Sample.Y) [Sample.X'; Sample.Y'] []
     = Ok success
          (replacedBy (Sample.mulf Sample.X Sample.Y)
             (mkOperation spirv_MatrixTimesScalarOp [Sample.Y'; Sample.k]
                          [Sample.coopType] 9%nat) [])
  /\ WmmaElementwiseOpToSPIRVScalarMulLowering_matchAndRewrite
       (Sample.mulf Sample.Y Sample.X) [Sample.Y'; Sample.X'] []
     = Ok success
          (replacedBy (Sample.mulf Sample.Y Sample.X)
             (mkOperation spirv_MatrixTimesScalarOp [Sample.Y'; Sample.k]
                          [Sample.coopType] 9%nat) []).
Proof.
  apply (@constant_rule_feeds_scalar_fusion
           Sample.k Sample.k Sample.Y Sample.Y'
           16 16 Sample.f32 "COp"%string 7%nat
           16 16 Sample.f32 "COp"%string 9%nat [] []).
  - reflexivity.
  - reflexivity.
Defined.

(* ===================================================================== *)
(** ** The stride constant, exactly *)
(* ===================================================================== *)

Lemma getSExtValue_make_32_range (S : Z) :
  - 2 ^ 31 <= APInt.getSExtValue (APInt.make 32 S) < 2 ^ 31.
Proof.
  unfold APInt.getSExtValue, APInt.make. cbn [APInt.U APInt.BitWidth].
  change (2 ^ (32 - 1)) with 2147483648. change (2 ^ 32) with 4294967296.
  change (2 ^ 31) with 2147483648.
  pose proof (Z.mod_pos_bound S 4294967296 ltac:(lia)) as Hb.
  destruct (Z.ltb_spec (S mod 4294967296) 2147483648); lia.
Qed.

Lemma getSExtValue_make_32_iff (S : Z) :
  APInt.getSExtValue (APInt.make 32 S) = S <-> - 2 ^ 31 <= S < 2 ^ 31.
Proof.
  split.
  - intros H. rewrite <- H. apply getSExtValue_make_32_range.
  - apply getSExtValue_make_32.
Qed.

(** X3.  The stride constant a load or a store is lowered with holds the
    leading dimension [S] reduced to 32 bits and read as a signed number;
    it holds [S] itself exactly when [-2^31 <= S < 2^31]. *)
Theorem stride_constant_exact_iff
      (TC : Type)
      (getElementPtr : TC -> Ty -> Value -> list Value -> Location -> M Value)
      (converter : TC) (leadDimension : APInt.t) (T : bool)
      (src memref : Value) (indices : list Value)
      (memShape : list Z) (memElem : Ty)
      (R C : Z) (E : Ty) (operand : string) (loc : Location)
      (src' memref' : Value) (indices' : list Value)
      (bufferPtr : Value) (rw rw1 : Rewriter) :
  let S := APInt.getSExtValue leadDimension in
  getType memref = MemRefType memShape memElem ->
  getElementPtr converter (MemRefType memShape memElem) memref' indices'
                loc rw = Ok bufferPtr rw1 ->
  (exists rw',
      WmmaLoadOpToSPIRVLowering_matchAndRewrite
        getElementPtr converter
        (mkOperation (SubgroupMmaLoadMatrixOp leadDimension T)
                     (memref :: indices) [MMAMatrixType [R; C] E operand] loc)
        (memref' :: indices') rw
      = Ok success rw'
      /\ emittedStride rw' = Some (APInt.getSExtValue (APInt.make 32 S))
      /\ (emittedStride rw' = Some S <-> - 2 ^ 31 <= S < 2 ^ 31))
  /\
  (exists rw',
      WmmaStoreOpToSPIRVLowering_matchAndRewrite
        getElementPtr converter
        (mkOperation (SubgroupMmaStoreMatrixOp leadDimension T)
                     (src :: memref :: indices) [] loc)
        (src' :: memref' :: indices') rw
      = Ok success rw'
      /\ emittedStride rw' = Some (APInt.getSExtValue (APInt.make 32 S))
      /\ (emittedStride rw' = Some S <-> - 2 ^ 31 <= S < 2 ^ 31)).
Proof.
  intros S Hty Hptr.
  assert (Hiff : Some (APInt.getSExtValue (APInt.make 32 S)) = Some S
                 <-> - 2 ^ 31 <= S < 2 ^ 31).
  { rewrite <- getSExtValue_make_32_iff.
    split; intros H; [injection H; auto | f_equal; exact H]. }
  split.
  - eexists. split; [eapply WmmaLoadOpToSPIRVLowering_run; eassumption |].
    split; [reflexivity | exact Hiff].
  - eexists. split; [eapply WmmaStoreOpToSPIRVLowering_run; eassumption |].
    split; [reflexivity | exact Hiff].
Qed.

Lemma stride_constant_exact_iff_witness :
  (exists rw',
      WmmaLoadOpToSPIRVLowering_matchAndRewrite
        Sample.getElementPtr tt (Sample.load (- 1) true)
        [Sample.pointer; Sample.i0; Sample.i0] []
      = Ok success rw'
      /\ emittedStride rw' = Some (APInt.getSExtValue (APInt.make 32 (- 1)))
      /\ (emittedStride rw' = Some (- 1) <-> - 2 ^ 31 <= - 1 < 2 ^ 31))
  /\
  (exists rw',
      WmmaStoreOpToSPIRVLowering_matchAndRewrite
        Sample.getElementPtr tt (Sample.store (- 1) true)
        [Sample.Y'; Sample.pointer; Sample.i0; Sample.i0] []
      = Ok success rw'
      /\ emittedStride rw' = Some (APInt.getSExtValue (APInt.make 32 (- 1)))
      /\ (emittedStride rw' = Some (- 1) <-> - 2 ^ 31 <= - 1 < 2 ^ 31)).
Proof.
  apply (@stride_constant_exact_iff
           unit Sample.getElementPtr tt (APInt.make 64 (- 1)) true
           Sample.Y Sample.memref [Sample.i0; Sample.i0]
           [32; 32] Sample.f32 16 16 Sample.f32 "COp"%string 5%nat
           Sample.Y' Sample.pointer [Sample.i0; Sample.i0]
           Sample.pointer [] []).
  - reflexivity.
  - reflexivity.
Defined.

(* ===================================================================== *)
(** ** Result types agree across the rules *)
(* ===================================================================== *)

(** X4.  The rules that produce a matrix give it one and the same type.  For
    an original result type of shape [R :: C :: more] and element type [E],
    the load rule, the constant-matrix rule and the default elementwise rule
    (on a supported sub-kind and cooperative operands) each emit an operation
    whose single result type is the cooperative matrix type of [E], subgroup
    scope, [R] rows and [C] columns; the operand tag of the MMA type and the
    entries of the shape after the second play no part. *)
Theorem lowered_result_types_agree
      (TC : Type)
      (getElementPtr : TC -> Ty -> Value -> list Value -> Location -> M Value)
      (converter : TC) (leadDimension : APInt.t) (T : bool)
      (memref : Value) (indices : list Value)
      (memShape : list Z) (memElem : Ty)
      (R C : Z) (more : list Z) (E : Ty) (operand : string)
      (loc : Location)
      (memref' : Value) (indices' : list Value)
      (bufferPtr : Value) (rw rw1 : Rewriter)
      (operands : list Value) (cst : Value)
      (opType : MMAElementwiseOp) (target : OpKind) (adaptor : OpAdaptor) :
  getType memref = MemRefType memShape memElem ->
  getElementPtr converter (MemRefType memShape memElem) memref' indices'
                loc rw = Ok bufferPtr rw1 ->
  spec_target opType = Some target ->
  allCooperative adaptor = true ->
  let matrixType := MMAMatrixType (R :: C :: more) E operand in
  let coopType := CooperativeMatrixNVType E Subgroup R C in
  (exists rw',
      WmmaLoadOpToSPIRVLowering_matchAndRewrite
        getElementPtr converter
        (mkOperation (SubgroupMmaLoadMatrixOp leadDimension T)
                     (memref :: indices) [matrixType] loc)
        (memref' :: indices') rw
      = Ok success rw'
      /\ option_map getResultTypes (emitted rw') = Some [coopType])
  /\ (exists rw',
         WmmaConstantOpToSPIRVLowering_matchAndRewrite
           (mkOperation SubgroupMmaConstantMatrixOp operands [matrixType] loc)
           [cst] rw
         = Ok success rw'
         /\ option_map getResultTypes (emitted rw') = Some [coopType])
  /\ (exists rw',
         WmmaElementwiseOpToSPIRVDefaultLowering_matchAndRewrite
           (mkOperation (SubgroupMmaElementwiseOp opType) operands
                        [matrixType] loc)
           adaptor rw
         = Ok success rw'
         /\ option_map getResultTypes (emitted rw') = Some [coopType]).
Proof.
  intros Hty Hptr Htarget Hcoop matrixType coopType. repeat split.
  - eexists. split.
    + unfold WmmaLoadOpToSPIRVLowering_matchAndRewrite, bind.
      cbn. rewrite Hty. cbn. rewrite Hptr. reflexivity.
    + reflexivity.
  - eexists. split; reflexivity.
  - unfold WmmaElementwiseOpToSPIRVDefaultLowering_matchAndRewrite.
    fold (allCooperative adaptor). rewrite Hcoop. cbn [negb].
    destruct opType; try discriminate Htarget;
      (eexists; split; reflexivity).
Qed.

Lemma lowered_result_types_agree_witness :
  let matrixType := MMAMatrixType [8; 32; 4] Sample.f32 "AOp" in
  let coopType := CooperativeMatrixNVType Sample.f32 Subgroup 8 32 in
  (exists rw',
      WmmaLoadOpToSPIRVLowering_matchAndRewrite
        Sample.getElementPtr tt
        (mkOperation (SubgroupMmaLoadMatrixOp (APInt.make 64 32) false)
                     [Sample.memref; Sample.i0] [matrixType] 5%nat)
        [Sample.pointer; Sample.i0] []
      = Ok success rw'
      /\ option_map getResultTypes (emitted rw') = Some [coopType])
  /\ (exists rw',
         WmmaConstantOpToSPIRVLowering_matchAndRewrite
           (mkOperation SubgroupMmaConstantMatrixOp [Sample.k] [matrixType]
                        5%nat)
           [Sample.k] []
         = Ok success rw'
         /\ option_map getResultTypes (emitted rw') = Some [coopType])
  /\ (exists rw',
         WmmaElementwiseOpToSPIRVDefaultLowering_matchAndRewrite
           (mkOperation (SubgroupMmaElementwiseOp NEGATEF) [Sample.k]
                        [matrixType] 5%nat)
           [Sample.Y'] []
         = Ok success rw'
         /\ option_map getResultTypes (emitted rw') = Some [coopType]).
Proof.
  apply (@lowered_result_types_agree
           unit Sample.getElementPtr tt (APInt.make 64 32) false
           Sample.memref [Sample.i0] [32; 32] Sample.f32
           8 32 [4] Sample.f32 "AOp"%string 5%nat
           Sample.pointer [Sample.i0] Sample.pointer [] []
           [Sample.k] Sample.k NEGATEF spirv_FNegateOp [Sample.Y']).
  - reflexivity.
  - reflexivity.
  - reflexivity.
  - reflexivity.
Defined.

(** X8.  The type translator keeps the element type and the first two
    entries of the shape and nothing else: two MMA matrix types of at least
    two dimensions are translated to the same cooperative matrix type exactly
    when they have the same element type, rows and columns, whatever their
    operand tags and further shape entries. *)
Theorem convertMMAToSPIRVCoopMatrixNVType_same_iff
        (r1 c1 r2 c2 : Z) (s1 s2 : list Z) (E1 E2 : Ty)
        (o1 o2 : string) (rw : Rewriter) :
  convertMMAToSPIRVCoopMatrixNVType (MMAMatrixType (r1 :: c1 :: s1) E1 o1) rw
  = convertMMAToSPIRVCoopMatrixNVType (MMAMatrixType (r2 :: c2 :: s2) E2 o2)
                                      rw
  <-> (E1 = E2 /\ r1 = r2 /\ c1 = c2).
Proof.
  cbn. unfold CooperativeMatrixNVType_get. split.
  - intros H. inversion H. auto.
  - intros (-> & -> & ->). reflexivity.
Qed.

(* ===================================================================== *)
(** ** When the elementwise rules fire *)
(* ===================================================================== *)

(** X5.  The fusion rule leaves everything but a float multiply of two
    cooperative operands alone: when the number of converted operands is not
    two, or one of them has no cooperative matrix type, or the elementwise
    sub-kind is not [MULF], it declines with the rewriter unchanged; in the
    first two cases it does so without looking at the operation. *)
Theorem scalar_fusion_declines_early
        (op : Operation) (adaptor : OpAdaptor) (rw : Rewriter) :
  (List.length adaptor <> 2%nat
   \/ allCooperative adaptor = false
   \/ exists opType, getKind op = SubgroupMmaElementwiseOp opType
                     /\ opType <> MULF) ->
  WmmaElementwiseOpToSPIRVScalarMulLowering_matchAndRewrite op adaptor rw
  = Ok failure rw.
Proof.
  intros H.
  unfold WmmaElementwiseOpToSPIRVScalarMulLowering_matchAndRewrite.
  destruct (Nat.eqb_spec (List.length adaptor) 2) as [Hlen | Hlen];
    [| reflexivity].
  cbn [negb]. fold (allCooperative adaptor).
  destruct (allCooperative adaptor); [| reflexivity].
  cbn [negb].
  destruct H as [H | [H | (opType & Hkind & HopType)]];
    [contradiction | discriminate |].
  unfold bind, getOpType. rewrite Hkind. cbn.
  destruct opType; try reflexivity. now elim HopType.
Qed.

Lemma scalar_fusion_declines_early_witness :
  WmmaElementwiseOpToSPIRVScalarMulLowering_matchAndRewrite
    Sample.ccOp [Sample.X'; Sample.Y'; Sample.Y'] [Create Sample.ccOp]
  = Ok failure [Create Sample.ccOp].
Proof.
  apply (@scalar_fusion_declines_early
           Sample.ccOp [Sample.X'; Sample.Y'; Sample.Y']
           [Create Sample.ccOp]).
  left. discriminate.
Defined.

Lemma replaceOpWithNewOp_Ok_inv
      (op : Operation) (build : Location -> Operation)
      (rw : Rewriter) (newOp : Operation) (rw' : Rewriter) :
  replaceOpWithNewOp op build rw = Ok newOp rw' ->
  newOp = build (getLoc op) /\ rw' = replacedBy op (build (getLoc op)) rw.
Proof.
  unfold replaceOpWithNewOp, bind, create, replaceOp, ret, replacedBy.
  intros H. inversion H. auto.
Qed.

(** A [true] from [createElementwiseOp] comes with one replacement, by a
    SPIR-V operation on the operands and of the type it was given, and the
    sub-kind was not a float multiply. *)
Lemma createElementwiseOp_true
      (op : Operation) (coopType : Ty) (operands : list Value)
      (rw rw' : Rewriter) :
  createElementwiseOp op coopType operands rw = Ok true rw' ->
  exists opType newOp,
    getKind op = SubgroupMmaElementwiseOp opType
    /\ isMULF opType = false
    /\ rw' = replacedBy op newOp rw
    /\ getDialect (getKind newOp) = spirv
    /\ getOperands newOp = operands
    /\ getResultTypes newOp = [coopType]
    /\ getLoc newOp = getLoc op.
Proof.
  unfold createElementwiseOp. intros H.
  apply bind_Ok_inv in H as (opType & rw1 & HopType & H).
  apply getOpType_Ok_inv in HopType as [Hkind ->].
  exists opType.
  destruct opType; cbn in H; inversion H;
    match goal with
    | Hrw : _ :: Create ?newOp :: _ = _ |- _ => exists newOp
    end;
    repeat split; exact Hkind.
Qed.

Lemma WmmaElementwiseOpToSPIRVDefaultLowering_success_inv
      (op : Operation) (adaptor : OpAdaptor) (rw rw' : Rewriter) :
  WmmaElementwiseOpToSPIRVDefaultLowering_matchAndRewrite op adaptor rw
  = Ok success rw' ->
  exists opType newOp,
    getKind op = SubgroupMmaElementwiseOp opType
    /\ isMULF opType = false
    /\ rw' = replacedBy op newOp rw
    /\ getDialect (getKind newOp) = spirv
    /\ getOperands newOp = adaptor
    /\ getLoc newOp = getLoc op.
Proof.
  unfold WmmaElementwiseOpToSPIRVDefaultLowering_matchAndRewrite.
  destruct (negb (forallb _ adaptor)); [discriminate |]. intros H.
  apply bind_Ok_inv in H as (res & rw1 & Hres & H).
  apply expect_Ok_inv in Hres as [_ ->].
  apply bind_Ok_inv in H as (type & rw1 & Htype & H).
  apply cast_MMAMatrixType_Ok_inv in Htype as [_ ->].
  apply bind_Ok_inv in H as (coopType & rw1 & Hcoop & H).
  apply convertMMAToSPIRVCoopMatrixNVType_readsOnly in Hcoop as ->.
  apply bind_Ok_inv in H as (created & rw1 & Hcreated & H).
  destruct created; cbn in H; inversion H; subst.
  apply createElementwiseOp_true in Hcreated
    as (opType & newOp & Hkind & Hmul & Hrw & Hd & Hops & _ & Hloc).
  exists opType, newOp. auto 7.
Qed.

Lemma WmmaElementwiseOpToSPIRVScalarMulLowering_success_kind
      (op : Operation) (adaptor : OpAdaptor) (rw rw' : Rewriter) :
  WmmaElementwiseOpToSPIRVScalarMulLowering_matchAndRewrite op adaptor rw
  = Ok success rw' ->
  getKind op = SubgroupMmaElementwiseOp MULF.
Proof.
  unfold WmmaElementwiseOpToSPIRVScalarMulLowering_matchAndRewrite.
  destruct (negb (Nat.eqb (List.length adaptor) 2)); [discriminate |].
  destruct (negb (forallb _ adaptor)); [discriminate |]. intros H.
  apply bind_Ok_inv in H as (opType & rw1 & HopType & H).
  apply getOpType_Ok_inv in HopType as [Hkind ->].
  destruct opType; cbn [isMULF negb] in H; try discriminate H.
  exact Hkind.
Qed.

(** X6.  The two elementwise patterns never both apply: on an operation,
    converted operands and rewriter on which the fusion rule succeeds, the
    default rule does not succeed (and the other way round), so that the
    order in which they are tried changes no outcome. *)
Theorem elementwise_patterns_exclusive
        (op : Operation) (adaptor : OpAdaptor) (rw rw1 rw2 : Rewriter) :
  WmmaElementwiseOpToSPIRVScalarMulLowering_matchAndRewrite op adaptor rw
  = Ok success rw1 ->
  WmmaElementwiseOpToSPIRVDefaultLowering_matchAndRewrite op adaptor rw
  <> Ok success rw2.
Proof.
  intros Hfusion Hdefault.
  apply WmmaElementwiseOpToSPIRVScalarMulLowering_success_kind in Hfusion.
  apply WmmaElementwiseOpToSPIRVDefaultLowering_success_inv in Hdefault
    as (opType & newOp & Hkind & Hmul & _).
  rewrite Hfusion in Hkind. inversion Hkind; subst opType. discriminate Hmul.
Qed.

Lemma elementwise_patterns_exclusive_witness :
  WmmaElementwiseOpToSPIRVDefaultLowering_matchAndRewrite
    (Sample.mulf Sample.X Sample.Y) [Sample.X'; Sample.Y'] []
  <> Ok success [].
Proof.
  apply (@elementwise_patterns_exclusive
           (Sample.mulf Sample.X Sample.Y) [Sample.X'; Sample.Y'] []
           (replacedBy (Sample.mulf Sample.X Sample.Y)
              (mkOperation spirv_MatrixTimesScalarOp [Sample.Y'; Sample.k]
                           [Sample.coopType] 9%nat) [])
           []).
  reflexivity.
Defined.

(* ===================================================================== *)
(** ** What a success leaves behind *)
(* ===================================================================== *)

Ltac invert_reads :=
  repeat match goal with
         | Hs : expect _ _ _ = Ok _ _ |- _ =>
             apply expect_Ok_inv in Hs as [_ ->]
         | Hs : index _ _ _ = Ok _ _ |- _ =>
             apply expect_Ok_inv in Hs as [_ ->]
         | Hs : getResult _ _ _ = Ok _ _ |- _ =>
             apply expect_Ok_inv in Hs as [_ ->]
         | Hs : getOperand _ _ _ = Ok _ _ |- _ =>
             apply expect_Ok_inv in Hs as [_ ->]
         | Hs : cast_MMAMatrixType _ _ = Ok _ _ |- _ =>
             apply cast_MMAMatrixType_Ok_inv in Hs as [_ ->]
         | Hs : convertMMAToSPIRVCoopMatrixNVType _ _ = Ok _ _ |- _ =>
             apply convertMMAToSPIRVCoopMatrixNVType_readsOnly in Hs as ->
         end.

Ltac invert_replace :=
  match goal with
  | Hs : replaceOpWithNewOp _ _ _ = Ok _ _ |- _ =>
      apply replaceOpWithNewOp_Ok_inv in Hs as [-> ->]
  end.

(** X7.  Whatever the pattern, a run that returns [success] has, as its last
    two actions, created one operation of the SPIR-V dialect at the location
    of the matched operation and replaced the matched operation by the
    results of that operation; for the multiply-accumulate, constant-matrix
    and the two elementwise patterns these are its only actions. *)
Theorem every_success_replaces
        (TC : Type)
        (getElementPtr : TC -> Ty -> Value -> list Value -> Location -> M Value)
        (p : ConversionPattern TC) (op : Operation) (adaptor : OpAdaptor)
        (rw rw' : Rewriter) :
  rewriteWith getElementPtr p op adaptor rw = Ok success rw' ->
  exists newOp rw1,
    rw' = ReplaceOp op (getResults newOp) :: Create newOp :: rw1
    /\ getDialect (getKind newOp) = spirv
    /\ getLoc newOp = getLoc op
    /\ match patternId p with
       | WmmaLoadOpToSPIRVLowering | WmmaStoreOpToSPIRVLowering => True
       | _ => rw1 = rw
       end.
Proof.
  unfold rewriteWith. destruct (patternId p); intros H.
  - unfold WmmaLoadOpToSPIRVLowering_matchAndRewrite in H.
    repeat invert_bind H. invert_replace. inversion H.
    eexists. eexists. repeat split.
  - unfold WmmaStoreOpToSPIRVLowering_matchAndRewrite in H.
    repeat invert_bind H. invert_replace. inversion H.
    eexists. eexists. repeat split.
  - unfold WmmaMmaOpToSPIRVLowering_matchAndRewrite in H.
    repeat invert_bind H. invert_replace. invert_reads. inversion H.
    eexists. eexists. repeat split.
  - unfold WmmaConstantOpToSPIRVLowering_matchAndRewrite in H.
    repeat invert_bind H. invert_replace. invert_reads. inversion H.
    eexists. eexists. repeat split.
  - apply WmmaElementwiseOpToSPIRVDefaultLowering_success_inv in H
      as (opType & newOp & Hkind & _ & -> & Hdialect & _ & Hloc).
    exists newOp, rw. repeat split; assumption.
  - apply WmmaElementwiseOpToSPIRVScalarMulLowering_success_inv in H
      as (lhs & rhs & x' & y' & splat & matrix & cc & scalar & coopType
          & _ & _ & _ & _ & _ & _ & ->).
    eexists. eexists. repeat split.
Qed.

Lemma every_success_replaces_witness :
  let op := Sample.store 16 true in
  let rw' :=
    [ReplaceOp op [];
     Create (build_NVCooperativeMatrixStoreOp
               Sample.pointer Sample.Y'
               (OpResult i32Type
                  (build_ConstantOp i32Type
                     (IntegerAttr i32Type (APInt.make 32 16)) 5%nat) 0)
               (OpResult i1Type
                  (build_ConstantOp i1Type (BoolAttr true) 5%nat) 0)
               None 5%nat);
     Create (build_ConstantOp i1Type (BoolAttr true) 5%nat);
     Create (build_ConstantOp i32Type
               (IntegerAttr i32Type (APInt.make 32 16)) 5%nat)] in
  exists newOp rw1,
    rw' = ReplaceOp op (getResults newOp) :: Create newOp :: rw1
    /\ getDialect (getKind newOp) = spirv
    /\ getLoc newOp = getLoc op
    /\ True.
Proof.
  apply (@every_success_replaces
           unit Sample.getElementPtr
           (mkPattern WmmaStoreOpToSPIRVLowering tt 1)
           (Sample.store 16 true)
           [Sample.Y'; Sample.pointer; Sample.i0; Sample.i0] []).
  reflexivity.
Defined.

(* ===================================================================== *)
(** ** The patterns without a decline *)
(* ===================================================================== *)

(** X10.  The load, store, multiply-accumulate and constant-matrix patterns
    never decline: whatever the operation, the converted operands, the
    rewriter and the address computation, every result a run of one of them
    returns is [success]. *)
Theorem unconditional_patterns_never_decline
        (TC : Type)
        (getElementPtr : TC -> Ty -> Value -> list Value -> Location -> M Value)
        (p : ConversionPattern TC) (op : Operation) (adaptor : OpAdaptor)
        (rw rw' : Rewriter) (r : LogicalResult) :
  patternId p <> WmmaElementwiseOpToSPIRVDefaultLowering ->
  patternId p <> WmmaElementwiseOpToSPIRVScalarMulLowering ->
  rewriteWith getElementPtr p op adaptor rw = Ok r rw' ->
  r = success.
Proof.
  intros Hdefault Hfusion Hrun.
  destruct r; [reflexivity | exfalso]. revert Hrun. unfold rewriteWith.
  destruct (patternId p); try contradiction.
  - apply WmmaLoadOpToSPIRVLowering_neverDeclines.
  - apply WmmaStoreOpToSPIRVLowering_neverDeclines.
  - apply WmmaMmaOpToSPIRVLowering_neverDeclines.
  - apply WmmaConstantOpToSPIRVLowering_neverDeclines.
Qed.

Lemma unconditional_patterns_never_decline_witness :
  let op := mkOperation SubgroupMmaComputeOp [Sample.Y; Sample.Y; Sample.Y]
                        [Sample.matrixType] 4%nat in
  let r := success in
  rewriteWith Sample.getElementPtr
              (mkPattern WmmaMmaOpToSPIRVLowering tt 1)
              op [Sample.Y'; Sample.Y'; Sample.Y'] []
  = Ok r (replacedBy op
            (mkOperation spirv_NVCooperativeMatrixMulAddOp
                         [Sample.Y'; Sample.Y'; Sample.Y']
                         [Sample.coopType] 4%nat) [])
  /\ r = success.
Proof.
  split; [reflexivity |].
  apply (@unconditional_patterns_never_decline
           unit Sample.getElementPtr
           (mkPattern WmmaMmaOpToSPIRVLowering tt 1)
           (mkOperation SubgroupMmaComputeOp [Sample.Y; Sample.Y; Sample.Y]
                        [Sample.matrixType] 4%nat)
           [Sample.Y'; Sample.Y'; Sample.Y'] []
           (replacedBy
              (mkOperation SubgroupMmaComputeOp
                           [Sample.Y; Sample.Y; Sample.Y]
                           [Sample.matrixType] 4%nat)
              (mkOperation spirv_NVCooperativeMatrixMulAddOp
                           [Sample.Y'; Sample.Y'; Sample.Y']
                           [Sample.coopType] 4%nat) [])
           success).
  - discriminate.
  - discriminate.
  - reflexivity.
Defined.
